(** * Raceline tracking controller: a shallow embedding of [controller.py]

    The Python module implements a two-level path-tracking controller:
    track queries (closest point, lookahead point, curvature), the
    pure-pursuit outer layer [controller] and the proportional inner
    layer [lower_controller].

    Modelling conventions.
    - A Python / NumPy float is an element of [R]: the development
      verifies the control law over exact real arithmetic, so rounding,
      infinities and NaN are outside the model.
    - A Python int is an element of [Z]; [%] is [Z.modulo], whose sign
      convention is Python's.
    - Code that can raise returns a [result]; the process-wide dict
      [controller_state] is a [gmap string pyval] threaded through the
      session monad [M].
    - The [for _ in range(n_points)] loop is a structural recursion on
      the number of remaining iterations. *)

From Stdlib Require Import Reals Lra Lia ZArith List.
From stdpp Require Import base option list gmap strings.

Import ListNotations.

(** ** Python runtime: exceptions, indexing, arithmetic helpers *)

Inductive exn : Type :=
  | AssertionError
  | IndexError
  | OverflowError
  | ValueError
  | ZeroDivisionError.

Inductive result (A : Type) : Type :=
  | Ok (a : A)
  | Raise (e : exn).

Arguments Ok {A} a.
Arguments Raise {A} e.

Definition rbind {A B : Type} (r : result A) (k : A -> result B) : result B :=
  match r with
  | Ok a => k a
  | Raise e => Raise e
  end.

Notation "x <-? r ; k" := (rbind r (fun x => k))
  (at level 100, r at next level, right associativity,
   format "'[v' x  <-?  r ; '/' k ']'").

(** An integer that NumPy can convert to a 64-bit C [long]. *)
Definition fits_c_long (i : Z) : bool :=
  ((-9223372036854775808 <=? i)%Z && (i <? 9223372036854775808)%Z)%bool.

(** [a[i]] for a NumPy array and a Python int: negative indices count
    from the end; an index outside [-len, len) raises [IndexError] when it
    fits a C [long], and [OverflowError] (from the conversion of the
    index) when it does not. *)
Definition py_index {A : Type} (l : list A) (i : Z) : result A :=
  let n := Z.of_nat (length l) in
  let j := if (i <? 0)%Z then (n + i)%Z else i in
  if ((0 <=? j)%Z && (j <? n)%Z)%bool then
    match l !! Z.to_nat j with
    | Some a => Ok a
    | None => Raise IndexError
    end
  else if fits_c_long i then Raise IndexError
  else Raise OverflowError.

(** [a % b] on Python ints. *)
Definition py_mod (a b : Z) : result Z :=
  if (b =? 0)%Z then Raise ZeroDivisionError else Ok (a mod b)%Z.

(** Comparisons on floats, as booleans. *)
Definition Rgtb (x y : R) : bool := if Rlt_dec y x then true else false.
Definition Rltb (x y : R) : bool := if Rlt_dec x y then true else false.
Definition Rgeb (x y : R) : bool := if Rle_dec y x then true else false.

(** Division.  A zero divisor is treated as a failure: this is the strict
    reading under which "every division is guarded" has content. *)
Definition checked_div (a b : R) : result R :=
  if Req_dec_T b 0 then Raise ZeroDivisionError else Ok (a / b)%R.

(** [np.clip(x, lo, hi)] is [minimum(maximum(x, lo), hi)]. *)
Definition clip (x lo hi : R) : R := Rmin (Rmax x lo) hi.

(** [np.sign]. *)
Definition sign (x : R) : R :=
  if Rltb x 0 then (-1)%R else if Rgtb x 0 then 1%R else 0%R.

(** ** Planar geometry on points *)

Definition point : Type := (R * R)%type.

Definition psub (p q : point) : point := (p.1 - q.1, p.2 - q.2)%R.
Definition padd (p q : point) : point := (p.1 + q.1, p.2 + q.2)%R.
Definition pscale (p : point) (k : R) : point := (p.1 * k, p.2 * k)%R.

(** [np.linalg.norm] of a 2-vector. *)
Definition norm (v : point) : R := sqrt (v.1 * v.1 + v.2 * v.2).

(** [np.cross] of two 2-vectors: the scalar z-component. *)
Definition cross (v w : point) : R := (v.1 * w.2 - v.2 * w.1)%R.

(** [x ** 1.5] for the non-negative [x] it is applied to. *)
Definition pow15 (x : R) : R := (x * sqrt x)%R.

(** [np.argmin] of a 1-D array: the first index holding the minimum; an
    empty array raises [ValueError].  [argmin_scan] is the left-to-right
    scan, replacing the candidate only on a strictly smaller value. *)
Fixpoint argmin_scan (l : list R) (i best_i : Z) (best_v : R) : Z :=
  match l with
  | [] => best_i
  | y :: ys =>
      if Rltb y best_v then argmin_scan ys (i + 1)%Z i y
      else argmin_scan ys (i + 1)%Z best_i best_v
  end.

Definition argmin (l : list R) : result Z :=
  match l with
  | [] => Raise ValueError
  | x :: xs => Ok (argmin_scan xs 1%Z 0%Z x)
  end.

(** Values stored in the session dict: ints and floats. *)
Inductive pyval : Type :=
  | PyInt (z : Z)
  | PyFloat (r : R).

(** ** Track query *)

Abbreviation track_t := (list point).

Definition find_closest_point_on_track
    (position : point) (track : track_t) (last_idx : pyval)
    : result (Z * R) :=
  let distances := map (fun p => norm (psub p position)) track in
  closest_idx <-? argmin distances;
  min_dist <-? py_index distances closest_idx;
  Ok (closest_idx, min_dist).

(** The body of [for _ in range(n_points)] in [find_lookahead_point].
    [fuel] is the number of iterations still to run; besides the returned
    pair the walk reports how many loop bodies were executed. *)
Fixpoint lookahead_walk (track : track_t) (lookahead_dist : R)
    (fuel : nat) (accumulated : R) (current_idx : Z) (steps : nat)
    : result (point * Z * nat) :=
  match fuel with
  | O =>
      p <-? py_index track current_idx;
      Ok (p, current_idx, steps)
  | S fuel' =>
      next_idx <-? py_mod (current_idx + 1) (Z.of_nat (length track));
      p_next <-? py_index track next_idx;
      p_cur <-? py_index track current_idx;
      let segment_dist := norm (psub p_next p_cur) in
      if Rgeb (accumulated + segment_dist) lookahead_dist then
        q <-? checked_div (lookahead_dist - accumulated)
                          (Rmax segment_dist 0.001);
        let ratio := clip q 0 1 in
        Ok (padd (pscale p_cur (1 - ratio)) (pscale p_next ratio),
            next_idx, S steps)
      else
        lookahead_walk track lookahead_dist fuel'
                       (accumulated + segment_dist) next_idx (S steps)
  end.

Definition find_lookahead_point
    (position : point) (track : track_t) (start_idx : Z) (lookahead_dist : R)
    : result (point * Z) :=
  r <-? lookahead_walk track lookahead_dist (length track) 0 start_idx 0;
  Ok (r.1.1, r.1.2).

(** Number of loop bodies [find_lookahead_point] executes. *)
Definition find_lookahead_steps
    (track : track_t) (start_idx : Z) (lookahead_dist : R) : result nat :=
  r <-? lookahead_walk track lookahead_dist (length track) 0 start_idx 0;
  Ok r.2.

Definition default_window : Z := 5.

Definition calculate_curvature (track : track_t) (idx window : Z) : result R :=
  let n_points := Z.of_nat (length track) in
  idx_prev <-? py_mod (idx - window) n_points;
  idx_next <-? py_mod (idx + window) n_points;
  p1 <-? py_index track idx_prev;
  p2 <-? py_index track idx;
  p3 <-? py_index track idx_next;
  let v1 := psub p2 p1 in
  let v2 := psub p3 p2 in
  let c := cross v1 v2 in
  let denom := pow15 (norm v1 * norm v2) in
  if Rgtb denom 1e-6 then
    q <-? checked_div (2 * c) denom;
    Ok (Rabs q)
  else Ok 0%R.

(** ** Session state and the session monad *)

Abbreviation store := (gmap string pyval).

(** The module-level initialiser of [controller_state]. *)
Definition controller_state : store :=
  <["last_idx" := PyInt 0]>
    (<["velocity_integral" := PyFloat 0]>
       (<["velocity_prev_error" := PyFloat 0]> ∅)).

Definition M (A : Type) : Type := store -> result A * store.

Definition mret {A : Type} (a : A) : M A := fun σ => (Ok a, σ).

Definition mbind {A B : Type} (m : M A) (k : A -> M B) : M B :=
  fun σ =>
    match m σ with
    | (Ok a, σ') => k a σ'
    | (Raise e, σ') => (Raise e, σ')
    end.

Definition lift {A : Type} (r : result A) : M A := fun σ => (r, σ).

(** [controller_state.get(key, dflt)] *)
Definition dict_get (key : string) (dflt : pyval) : M pyval :=
  fun σ => (Ok (default dflt (σ !! key)), σ).

(** [controller_state[key] = v] *)
Definition dict_set (key : string) (v : pyval) : M unit :=
  fun σ => (Ok tt, <[key := v]> σ).

Notation "x <- m ;; k" := (mbind m (fun x => k))
  (at level 100, m at next level, right associativity,
   format "'[v' x  <-  m ;; '/' k ']'").

(** ** Arrays and collaborators *)

(** A NumPy array of floats: its shape and its elements in row-major
    order. *)
Record ndarray : Type := mk_ndarray {
  shape : list nat;
  data : list R
}.

Definition wf_ndarray (a : ndarray) : Prop :=
  fold_right Nat.mul 1%nat (shape a) = length (data a).

(** [np.array([...])] of a flat list of floats. *)
Definition np_array (l : list R) : ndarray := mk_ndarray [length l] l.

(** The one attribute of the track object the controller reads. *)
Record RaceTrack : Type := mk_RaceTrack {
  centerline : track_t
}.

(** ** Path-tracking layer (outer loop) *)

(** Lines 118-131: the adaptive lookahead distance. *)
Definition lookahead_distance (velocity cross_track_error : R) : R :=
  let base_lookahead := 8.0%R in
  let velocity_factor := 0.15%R in
  let lookahead := (base_lookahead + velocity_factor * Rmin velocity 30)%R in
  let lookahead :=
    if Rgtb cross_track_error 2.0 then (lookahead * 0.8)%R
    else if Rgtb cross_track_error 1.0 then (lookahead * 0.9)%R
    else lookahead in
  clip lookahead 6.0 15.0.

(** Lines 137-163: pure-pursuit steering, error correction and clamp. *)
Definition pure_pursuit_steering
    (x y heading : R) (lookahead_point : point) (cross_track_error : R)
    : result R :=
  let dx := (lookahead_point.1 - x)%R in
  let dy := (lookahead_point.2 - y)%R in
  let cos_h := cos heading in
  let sin_h := sin heading in
  let target_x := (cos_h * dx + sin_h * dy)%R in
  let target_y := (- sin_h * dx + cos_h * dy)%R in
  let L := sqrt (target_x ^ 2 + target_y ^ 2) in
  desired_steering <-?
    (if Rgtb L 0.1 then
       let wheelbase := 3.6%R in
       q <-? checked_div (2.0 * wheelbase * target_y) (L * L);
       let desired_steering := atan q in
       if Rgtb cross_track_error 1.5 then
         let error_correction :=
           (0.05 * (cross_track_error - 1.5) * sign target_y)%R in
         let error_correction := clip error_correction (-0.1) 0.1 in
         Ok (desired_steering + error_correction)%R
       else Ok desired_steering
     else Ok 0%R);
  Ok (clip desired_steering (-0.9) 0.9).

(** Lines 169-176: the curvature-tiered base speed. *)
Definition curvature_speed (curvature : R) : R :=
  if Rgtb curvature 0.1 then 12.0%R
  else if Rgtb curvature 0.05 then 18.0%R
  else if Rgtb curvature 0.02 then 25.0%R
  else 35.0%R.

(** Lines 179-182: the off-track speed reduction. *)
Definition offtrack_speed (target_velocity cross_track_error : R) : R :=
  if Rgtb cross_track_error 2.0 then Rmin target_velocity 15.0
  else if Rgtb cross_track_error 1.0 then (target_velocity * 0.85)%R
  else target_velocity.

(** Lines 185-189: the speed rate limiter. *)
Definition rate_limit (target_velocity velocity : R) : R :=
  if Rgtb velocity 0 then
    let max_speed_change := 10.0%R in
    clip target_velocity (velocity - max_speed_change)
                         (velocity + max_speed_change)
  else target_velocity.

(** The local variables of [controller] that the properties speak about,
    as they stand when the function returns. *)
Record locals : Type := mk_locals {
  l_closest_idx : Z;
  l_cross_track_error : R;
  l_lookahead : R;
  l_lookahead_point : point;
  l_lookahead_idx : Z;
  l_desired_steering : R;
  l_curvature : R;
  l_planned_velocity : R;   (* [target_velocity] on entry to line 185 *)
  l_target_velocity : R     (* [target_velocity] at line 191 *)
}.

(** Lines 116-189, everything after the session dict has been written. *)
Definition controller_core
    (x y velocity heading : R) (track : track_t)
    (closest_idx : Z) (cross_track_error : R) : result locals :=
  let position := (x, y) in
  let lookahead := lookahead_distance velocity cross_track_error in
  r <-? find_lookahead_point position track closest_idx lookahead;
  let lookahead_point := r.1 in
  let lookahead_idx := r.2 in
  desired_steering <-?
    pure_pursuit_steering x y heading lookahead_point cross_track_error;
  curvature <-? calculate_curvature track lookahead_idx default_window;
  let target_velocity := curvature_speed curvature in
  let target_velocity := offtrack_speed target_velocity cross_track_error in
  Ok (mk_locals closest_idx cross_track_error lookahead lookahead_point
        lookahead_idx desired_steering curvature target_velocity
        (rate_limit target_velocity velocity)).

(** [controller], reporting its locals. *)
Definition controller_locals
    (state : list R) (parameters : list R) (racetrack : RaceTrack)
    : M locals :=
  x <- lift (py_index state 0);;
  y <- lift (py_index state 1);;
  velocity <- lift (py_index state 3);;
  heading <- lift (py_index state 4);;
  let position := (x, y) in
  let track := centerline racetrack in
  last_idx <- dict_get "last_idx" (PyInt 0);;
  r <- lift (find_closest_point_on_track position track last_idx);;
  let closest_idx := r.1 in
  let cross_track_error := r.2 in
  _ <- dict_set "last_idx" (PyInt closest_idx);;
  lift (controller_core x y velocity heading track
          closest_idx cross_track_error).

Definition controller
    (state : list R) (parameters : list R) (racetrack : RaceTrack)
    : M ndarray :=
  l <- controller_locals state parameters racetrack;;
  mret (np_array [l_desired_steering l; l_target_velocity l]).

(** ** Regulation layer (inner loop) *)

Definition py_assert (b : bool) : result unit :=
  if b then Ok tt else Raise AssertionError.

Definition lower_controller
    (state : list R) (desired : ndarray) (parameters : list R)
    : M ndarray :=
  lift (
    _ <-? py_assert (bool_decide (shape desired = [2%nat]));
    current_steering <-? py_index state 2;
    current_velocity <-? py_index state 3;
    desired_steering <-? py_index (data desired) 0;
    desired_velocity <-? py_index (data desired) 1;
    let steering_error := (desired_steering - current_steering)%R in
    let steering_gain :=
      if Rltb current_velocity 10 then 2.0%R
      else if Rltb current_velocity 25 then 1.8%R
      else 1.5%R in
    let steering_velocity := (steering_gain * steering_error)%R in
    let steering_velocity := clip steering_velocity (-0.4) 0.4 in
    let velocity_error := (desired_velocity - current_velocity)%R in
    let kp := 1.5%R in
    let acceleration := (kp * velocity_error)%R in
    let max_accel := 15.0%R in
    let max_decel := (-15.0)%R in
    let acceleration := clip acceleration max_decel max_accel in
    Ok (np_array [steering_velocity; acceleration])).

(** ** The tick driver

    The loop of [test_controller.py]: outer layer, inner layer, then the
    vehicle model's [update], which is an external collaborator. *)
Section Driver.

Variable update : list R -> ndarray -> list R.
Variable parameters : list R.
Variable racetrack : RaceTrack.

Definition tick (state : list R) : M (list R) :=
  desired <- controller state parameters racetrack;;
  control <- lower_controller state desired parameters;;
  mret (update state control).

Fixpoint run_ticks (n : nat) (state : list R) : M (list R) :=
  match n with
  | O => mret state
  | S n' =>
      state' <- tick state;;
      run_ticks n' state'
  end.

End Driver.

(** ** Reference notions the properties are stated against *)

(** The point at cyclic position [i] (any integer) of a closed track. *)
Definition track_at (track : track_t) (i : Z) : point :=
  nth (Z.to_nat (i mod Z.of_nat (length track))) track (0%R, 0%R).

(** Euclidean length of the segment leaving cyclic position [i]. *)
Definition segment_length (track : track_t) (i : Z) : R :=
  norm (psub (track_at track (i + 1)) (track_at track i)).

Fixpoint big_sum (f : nat -> R) (k : nat) : R :=
  match k with
  | O => 0%R
  | S k' => (big_sum f k' + f k')%R
  end.

(** Arc length of the [k] consecutive segments that start at [start]. *)
Definition arc_length (track : track_t) (start : Z) (k : nat) : R :=
  big_sum (fun j => segment_length track (start + Z.of_nat j)) k.

(** Total length of the closed track: the sum of all its segments. *)
Definition track_length (track : track_t) : R :=
  arc_length track 0 (length track).

(** The three-point curvature formula in the words of the design:
    [|2 * cross(v1, v2)| / (|v1| * |v2|) ^ 1.5]. *)
Definition chord_curvature (p1 p2 p3 : point) : R :=
  let v1 := psub p2 p1 in
  let v2 := psub p3 p2 in
  (Rabs (2 * cross v1 v2) / pow15 (norm v1 * norm v2))%R.

Definition chord_denominator (p1 p2 p3 : point) : R :=
  pow15 (norm (psub p2 p1) * norm (psub p3 p2)).

(** [i] is the first index of [l] holding the minimum [v]. *)
Definition first_min (l : list R) (i : nat) (v : R) : Prop :=
  l !! i = Some v /\
  (forall j w, l !! j = Some w -> (v <= w)%R) /\
  (forall j w, (j < i)%nat -> l !! j = Some w -> (v < w)%R).

(** The integers Python accepts as an index into [track]. *)
Definition valid_index (track : track_t) (i : Z) : Prop :=
  (- Z.of_nat (length track) <= i < Z.of_nat (length track))%Z.

(** The index variable of the lookahead walk after [k] loop bodies. *)
Definition walk_index (track : track_t) (cur : Z) (k : nat) : Z :=
  match k with
  | O => cur
  | S _ => ((cur + Z.of_nat k) mod Z.of_nat (length track))%Z
  end.

(** The interpolated point of lines 50-52. *)
Definition interpolate (p_cur p_next : point) (lookahead_dist accumulated : R)
    : point :=
  let segment_dist := norm (psub p_next p_cur) in
  let ratio :=
    clip ((lookahead_dist - accumulated) / Rmax segment_dist 0.001) 0 1 in
  padd (pscale p_cur (1 - ratio)) (pscale p_next ratio).

(** How many segments forward of [start] the cyclic index [i] lies,
    counting a whole turn as [length track] rather than [0]. *)
Definition forward_steps (track : track_t) (start i : Z) : nat :=
  S (Z.to_nat ((i - start - 1) mod Z.of_nat (length track))).

(** ** Sample inputs *)

(** A two-point track: out along the x axis and back. *)
Definition two_point_track : track_t := [(0, 0)%R; (1, 0)%R].


(** A one-point track and a vehicle at rest on it. *)
Definition one_point_track : RaceTrack := mk_RaceTrack [(0, 0)%R].
Definition state_at_rest : list R := [0; 0; 0; 0; 0]%R.

(** The unit square as a closed track, and a vehicle at rest 1.5 m to the
    left of its first corner, heading towards it. *)
Definition square_track : RaceTrack :=
  mk_RaceTrack [(0, 0)%R; (1, 0)%R; (1, 1)%R; (0, 1)%R].
Definition state_off_corner : list R := [-1.5; 0; 0; 0; 0]%R.

(** The distance [L] from the vehicle to the lookahead point, measured in
    the vehicle frame (lines 137-147). *)
Definition pursuit_distance
    (x y heading : R) (lookahead_point : point) : R :=
  let dx := (lookahead_point.1 - x)%R in
  let dy := (lookahead_point.2 - y)%R in
  let target_x := (cos heading * dx + sin heading * dy)%R in
  let target_y := (- sin heading * dx + cos heading * dy)%R in
  sqrt (target_x ^ 2 + target_y ^ 2).

(** Evaluate [track_at] on a literal track at literal positions. *)
Ltac eval_track_at :=
  unfold track_at;
  repeat match goal with
    | |- context [Z.to_nat ?e] =>
        let v := eval vm_compute in (Z.to_nat e) in
        change (Z.to_nat e) with v
    end;
  cbn [nth].

(** The lateral offset [target_y] of the lookahead point in the vehicle
    frame (lines 137-144). *)
Definition pursuit_lateral
    (x y heading : R) (lookahead_point : point) : R :=
  let dx := (lookahead_point.1 - x)%R in
  let dy := (lookahead_point.2 - y)%R in
  (- sin heading * dx + cos heading * dy)%R.

(** ** The scripts that drive the controller

    [analyze_oscillation.py] and [test_tracking.py] reset the session dict,
    run the tick loop (which is [run_ticks]) and classify each step. *)

(** [controller_state.clear()] *)
Definition dict_clear : M unit := fun _ => (Ok tt, ∅).

(** [controller_state.update({...})], the pairs in source order. *)
Definition dict_update (items : list (string * pyval)) : M unit :=
  fun σ => (Ok tt, foldl (fun m kv => <[kv.1 := kv.2]> m) σ items).

(** [analyze_oscillation.py], lines 25-28. *)
Definition reset_for_analysis : M unit :=
  _ <- dict_clear;;
  _ <- dict_set "last_idx" (PyInt 0);;
  _ <- dict_set "velocity_integral" (PyFloat 0);;
  dict_set "velocity_prev_error" (PyFloat 0).

(** [test_tracking.py], lines 25-33. *)
Definition reset_for_tracking : M unit :=
  _ <- dict_clear;;
  dict_update [("velocity_integral", PyFloat 0);
               ("velocity_prev_error", PyFloat 0);
               ("steering_integral", PyFloat 0);
               ("steering_prev_error", PyFloat 0);
               ("closest_point_idx", PyInt 0);
               ("lap_progress", PyFloat 0)].

(** [analyze_oscillation.py], lines 62-65: the direction of the track at
    the closest point. *)
Definition track_direction (centerline : track_t) (closest_idx : Z)
    : result point :=
  if (closest_idx <? Z.of_nat (length centerline) - 1)%Z then
    a <-? py_index centerline (closest_idx + 1);
    b <-? py_index centerline closest_idx;
    Ok (psub a b)
  else
    a <-? py_index centerline 0;
    b <-? py_index centerline closest_idx;
    Ok (psub a b).

(** [analyze_oscillation.py], lines 77-86: the status column. *)
Definition track_status (cte track_width_r track_width_l : R) : string :=
  if Rgtb cte track_width_r then "VIOL-R"
  else if Rgtb cte track_width_l then "VIOL-L"
  else if Rgtb cte 3.0 then "FAR"
  else if Rgtb cte 1.5 then "OFF"
  else "OK".

(** [test_tracking.py], line 63. *)
Definition is_violating (cross_track_error track_width_r track_width_l : R)
    : bool :=
  Rgtb cross_track_error (Rmax track_width_r track_width_l).

(** What one step of [test_tracking.py] observes: the cross-track error
    and the two track widths at the closest point. *)
Record observation : Type := mk_observation {
  o_cross_track_error : R;
  o_track_width_r : R;
  o_track_width_l : R
}.

(** The three accumulators of [test_tracking.py] (lines 36-38). *)
Record tracking_totals : Type := mk_tracking_totals {
  max_cross_track : R;
  total_cross_track : R;
  violations : nat
}.

(** Lines 63-69: the update of the accumulators in one step. *)
Definition tracking_step (t : tracking_totals) (o : observation)
    : tracking_totals :=
  let cross_track_error := o_cross_track_error o in
  let violating :=
    is_violating cross_track_error (o_track_width_r o) (o_track_width_l o) in
  mk_tracking_totals
    (Rmax (max_cross_track t) cross_track_error)
    (total_cross_track t + cross_track_error)
    (if violating then S (violations t) else violations t).

Definition tracking_run (obs : list observation) : tracking_totals :=
  foldl tracking_step (mk_tracking_totals 0 0 0) obs.

(** Line 107, with [steps = step + 1] the number of steps simulated. *)
Definition tracking_success (t : tracking_totals) (steps : nat) : bool :=
  Rltb (INR (violations t)) (INR steps * 0.1) && Rltb (max_cross_track t) 10.

(** ** Performance metrics ([metrics.py])

    The attributes of a [PerformanceMetrics] object, in the order [reset]
    assigns them.  [lap_time] is [None] until a lap is finalised. *)
Record PerformanceMetrics : Type := mk_PerformanceMetrics {
  timestamps : list R;
  positions : list (list R);
  velocities : list R;
  accelerations : list R;
  steering_angles : list R;
  steering_velocities : list R;
  cross_track_errors : list R;
  heading_errors : list R;
  curvatures : list R;
  lap_progress : list R;
  lap_time : option R;
  max_velocity : R;
  avg_velocity : R;
  track_violations : Z;
  total_distance : R
}.

(** Assignments to single attributes. *)
Definition set_timestamps (v : list R) (m : PerformanceMetrics)
    : PerformanceMetrics :=
  mk_PerformanceMetrics
    v (positions m) (velocities m) (accelerations m) (steering_angles m) (steering_velocities m) (cross_track_errors m) (heading_errors m) (curvatures m) (lap_progress m) (lap_time m) (max_velocity m) (avg_velocity m) (track_violations m) (total_distance m).

Definition set_positions (v : list (list R)) (m : PerformanceMetrics)
    : PerformanceMetrics :=
  mk_PerformanceMetrics
    (timestamps m) v (velocities m) (accelerations m) (steering_angles m) (steering_velocities m) (cross_track_errors m) (heading_errors m) (curvatures m) (lap_progress m) (lap_time m) (max_velocity m) (avg_velocity m) (track_violations m) (total_distance m).

Definition set_velocities (v : list R) (m : PerformanceMetrics)
    : PerformanceMetrics :=
  mk_PerformanceMetrics
    (timestamps m) (positions m) v (accelerations m) (steering_angles m) (steering_velocities m) (cross_track_errors m) (heading_errors m) (curvatures m) (lap_progress m) (lap_time m) (max_velocity m) (avg_velocity m) (track_violations m) (total_distance m).

Definition set_accelerations (v : list R) (m : PerformanceMetrics)
    : PerformanceMetrics :=
  mk_PerformanceMetrics
    (timestamps m) (positions m) (velocities m) v (steering_angles m) (steering_velocities m) (cross_track_errors m) (heading_errors m) (curvatures m) (lap_progress m) (lap_time m) (max_velocity m) (avg_velocity m) (track_violations m) (total_distance m).

Definition set_steering_angles (v : list R) (m : PerformanceMetrics)
    : PerformanceMetrics :=
  mk_PerformanceMetrics
    (timestamps m) (positions m) (velocities m) (accelerations m) v (steering_velocities m) (cross_track_errors m) (heading_errors m) (curvatures m) (lap_progress m) (lap_time m) (max_velocity m) (avg_velocity m) (track_violations m) (total_distance m).

Definition set_steering_velocities (v : list R) (m : PerformanceMetrics)
    : PerformanceMetrics :=
  mk_PerformanceMetrics
    (timestamps m) (positions m) (velocities m) (accelerations m) (steering_angles m) v (cross_track_errors m) (heading_errors m) (curvatures m) (lap_progress m) (lap_time m) (max_velocity m) (avg_velocity m) (track_violations m) (total_distance m).

Definition set_cross_track_errors (v : list R) (m : PerformanceMetrics)
    : PerformanceMetrics :=
  mk_PerformanceMetrics
    (timestamps m) (positions m) (velocities m) (accelerations m) (steering_angles m) (steering_velocities m) v (heading_errors m) (curvatures m) (lap_progress m) (lap_time m) (max_velocity m) (avg_velocity m) (track_violations m) (total_distance m).

Definition set_heading_errors (v : list R) (m : PerformanceMetrics)
    : PerformanceMetrics :=
  mk_PerformanceMetrics
    (timestamps m) (positions m) (velocities m) (accelerations m) (steering_angles m) (steering_velocities m) (cross_track_errors m) v (curvatures m) (lap_progress m) (lap_time m) (max_velocity m) (avg_velocity m) (track_violations m) (total_distance m).

Definition set_curvatures (v : list R) (m : PerformanceMetrics)
    : PerformanceMetrics :=
  mk_PerformanceMetrics
    (timestamps m) (positions m) (velocities m) (accelerations m) (steering_angles m) (steering_velocities m) (cross_track_errors m) (heading_errors m) v (lap_progress m) (lap_time m) (max_velocity m) (avg_velocity m) (track_violations m) (total_distance m).

Definition set_lap_progress (v : list R) (m : PerformanceMetrics)
    : PerformanceMetrics :=
  mk_PerformanceMetrics
    (timestamps m) (positions m) (velocities m) (accelerations m) (steering_angles m) (steering_velocities m) (cross_track_errors m) (heading_errors m) (curvatures m) v (lap_time m) (max_velocity m) (avg_velocity m) (track_violations m) (total_distance m).

Definition set_lap_time (v : option R) (m : PerformanceMetrics)
    : PerformanceMetrics :=
  mk_PerformanceMetrics
    (timestamps m) (positions m) (velocities m) (accelerations m) (steering_angles m) (steering_velocities m) (cross_track_errors m) (heading_errors m) (curvatures m) (lap_progress m) v (max_velocity m) (avg_velocity m) (track_violations m) (total_distance m).

Definition set_max_velocity (v : R) (m : PerformanceMetrics)
    : PerformanceMetrics :=
  mk_PerformanceMetrics
    (timestamps m) (positions m) (velocities m) (accelerations m) (steering_angles m) (steering_velocities m) (cross_track_errors m) (heading_errors m) (curvatures m) (lap_progress m) (lap_time m) v (avg_velocity m) (track_violations m) (total_distance m).

Definition set_avg_velocity (v : R) (m : PerformanceMetrics)
    : PerformanceMetrics :=
  mk_PerformanceMetrics
    (timestamps m) (positions m) (velocities m) (accelerations m) (steering_angles m) (steering_velocities m) (cross_track_errors m) (heading_errors m) (curvatures m) (lap_progress m) (lap_time m) (max_velocity m) v (track_violations m) (total_distance m).

Definition set_track_violations (v : Z) (m : PerformanceMetrics)
    : PerformanceMetrics :=
  mk_PerformanceMetrics
    (timestamps m) (positions m) (velocities m) (accelerations m) (steering_angles m) (steering_velocities m) (cross_track_errors m) (heading_errors m) (curvatures m) (lap_progress m) (lap_time m) (max_velocity m) (avg_velocity m) v (total_distance m).

Definition set_total_distance (v : R) (m : PerformanceMetrics)
    : PerformanceMetrics :=
  mk_PerformanceMetrics
    (timestamps m) (positions m) (velocities m) (accelerations m) (steering_angles m) (steering_velocities m) (cross_track_errors m) (heading_errors m) (curvatures m) (lap_progress m) (lap_time m) (max_velocity m) (avg_velocity m) (track_violations m) v.

(** Methods run in a state-and-exception monad over the object; an
    exception leaves the object as mutated so far. *)
Definition PM (A : Type) : Type :=
  PerformanceMetrics -> result A * PerformanceMetrics.

Definition pm_ret {A : Type} (a : A) : PM A := fun m => (Ok a, m).

Definition pm_bind {A B : Type} (c : PM A) (k : A -> PM B) : PM B :=
  fun m =>
    match c m with
    | (Ok a, m') => k a m'
    | (Raise e, m') => (Raise e, m')
    end.

Definition pm_lift {A : Type} (r : result A) : PM A := fun m => (r, m).

Definition pm_modify (f : PerformanceMetrics -> PerformanceMetrics) : PM unit :=
  fun m => (Ok tt, f m).

Definition pm_get {A : Type} (f : PerformanceMetrics -> A) : PM A :=
  fun m => (Ok (f m), m).

Notation "x <~ c ;; k" := (pm_bind c (fun x => k))
  (at level 100, c at next level, right associativity,
   format "'[v' x  <~  c ;; '/' k ']'").

(** [reset]: the object every run starts from ([__init__] calls it). *)
Definition reset : PerformanceMetrics :=
  mk_PerformanceMetrics [] [] [] [] [] [] [] [] [] [] None 0 0 0 0.

(** [update], lines 43-56.  [state[:2]] is a slice and cannot fail;
    [state[3]], [state[2]], [control[1]] and [control[0]] can. *)
Definition update
    (timestamp : R) (state control : list R)
    (cross_track_error heading_error curvature progress : R) : PM unit :=
  _ <~ pm_modify (fun m => set_timestamps (timestamps m ++ [timestamp]) m);;
  _ <~ pm_modify (fun m => set_positions (positions m ++ [take 2 state]) m);;
  v <~ pm_lift (py_index state 3);;
  _ <~ pm_modify (fun m => set_velocities (velocities m ++ [v]) m);;
  s <~ pm_lift (py_index state 2);;
  _ <~ pm_modify (fun m => set_steering_angles (steering_angles m ++ [s]) m);;
  a <~ pm_lift (py_index control 1);;
  _ <~ pm_modify (fun m => set_accelerations (accelerations m ++ [a]) m);;
  w <~ pm_lift (py_index control 0);;
  _ <~ pm_modify
         (fun m => set_steering_velocities (steering_velocities m ++ [w]) m);;
  _ <~ pm_modify
         (fun m =>
            set_cross_track_errors
              (cross_track_errors m ++ [cross_track_error]) m);;
  _ <~ pm_modify
         (fun m => set_heading_errors (heading_errors m ++ [heading_error]) m);;
  _ <~ pm_modify (fun m => set_curvatures (curvatures m ++ [curvature]) m);;
  _ <~ pm_modify (fun m => set_lap_progress (lap_progress m ++ [progress]) m);;
  v' <~ pm_lift (py_index state 3);;
  current_max <~ pm_get max_velocity;;
  if Rgtb v' current_max then pm_modify (set_max_velocity v')
  else pm_ret tt.

(** Sum and [np.mean] of a list of floats; the code calls [np.mean] only
    behind a non-emptiness test. *)
Definition list_sum (l : list R) : R := foldr Rplus 0%R l.

Definition mean (l : list R) : R := (list_sum l / INR (length l))%R.

(** [np.max] of a non-empty array. *)
Definition list_max (l : list R) : result R :=
  match l with
  | [] => Raise ValueError
  | x :: xs => Ok (foldl Rmax x xs)
  end.

(** [np.linalg.norm] of one row. *)
Definition norm_row (v : list R) : R :=
  sqrt (list_sum (map (fun x => (x * x)%R) v)).

(** [np.array] of a list of rows needs rows of one width (current NumPy
    raises [ValueError] on ragged input). *)
Definition np_rows (rows : list (list R)) : result (list (list R)) :=
  match rows with
  | [] => Ok []
  | r :: rs =>
      if forallb (fun r' => Nat.eqb (length r') (length r)) rs
      then Ok rows else Raise ValueError
  end.

(** [np.diff(positions, axis=0)]: each row minus its predecessor. *)
Fixpoint np_diff (rows : list (list R)) : list (list R) :=
  match rows with
  | r1 :: ((r2 :: _) as rest) => zip_with Rminus r2 r1 :: np_diff rest
  | _ => []
  end.

(** [finalize_lap], lines 60-71. *)
Definition finalize_lap (lap_time : R) (violations : Z) : PM unit :=
  _ <~ pm_modify (set_lap_time (Some lap_time));;
  _ <~ pm_modify (set_track_violations violations);;
  vs <~ pm_get velocities;;
  _ <~ (if (0 <? length vs)%nat
        then pm_modify (set_avg_velocity (mean vs))
        else pm_ret tt);;
  ps <~ pm_get positions;;
  if (1 <? length ps)%nat then
    positions <~ pm_lift (np_rows ps);;
    let diffs := np_diff positions in
    let distances := map norm_row diffs in
    pm_modify (set_total_distance (list_sum distances))
  else pm_ret tt.

(** The dictionary built by [generate_report]; the time stamp comes from
    the system clock and is passed in. *)
Record report : Type := mk_report {
  r_lap_time : option R;
  r_max_velocity : R;
  r_avg_velocity : R;
  r_track_violations : Z;
  r_total_distance : R;
  r_avg_cross_track_error : R;
  r_max_cross_track_error : R;
  r_avg_heading_error : R;
  r_timestamp : string
}.

(** [generate_report], lines 75-86. *)
Definition generate_report (now : string) (m : PerformanceMetrics)
    : result report :=
  avg_cte <-? (if bool_decide (cross_track_errors m = [])
               then Ok 0%R
               else Ok (mean (map Rabs (cross_track_errors m))));
  max_cte <-? (if bool_decide (cross_track_errors m = [])
               then Ok 0%R
               else list_max (map Rabs (cross_track_errors m)));
  avg_he <-? (if bool_decide (heading_errors m = [])
              then Ok 0%R
              else Ok (mean (map Rabs (heading_errors m))));
  Ok (mk_report (lap_time m) (max_velocity m) (avg_velocity m)
        (track_violations m) (total_distance m)
        avg_cte max_cte avg_he now).

(** All ten history lists of the object have length [n]. *)
Definition aligned (n : nat) (m : PerformanceMetrics) : Prop :=
  length (timestamps m) = n /\ length (positions m) = n /\
  length (velocities m) = n /\ length (accelerations m) = n /\
  length (steering_angles m) = n /\ length (steering_velocities m) = n /\
  length (cross_track_errors m) = n /\ length (heading_errors m) = n /\
  length (curvatures m) = n /\ length (lap_progress m) = n.

(** The arguments of one [update] call. *)
Record sample : Type := mk_sample {
  s_timestamp : R;
  s_state : list R;
  s_control : list R;
  s_cross_track_error : R;
  s_heading_error : R;
  s_curvature : R;
  s_progress : R
}.

Definition update_sample (s : sample) : PM unit :=
  update (s_timestamp s) (s_state s) (s_control s)
    (s_cross_track_error s) (s_heading_error s) (s_curvature s)
    (s_progress s).

(** A recording session: [update] once per sample, stopping at the first
    exception. *)
Fixpoint record_all (samples : list sample) : PM unit :=
  match samples with
  | [] => pm_ret tt
  | s :: rest =>
      _ <~ update_sample s;;
      record_all rest
  end.

Definition well_formed_sample (s : sample) : Prop :=
  (4 <= length (s_state s))%nat /\ (2 <= length (s_control s))%nat.

(** ** Scoring ([test_runner.py], lines 144-147) *)
Definition run_score (lap_time : R) (track_violations : Z) : R :=
  let base_score := 100%R in
  let time_penalty := Rmin (lap_time * 0.1) 50 in
  let violation_penalty := (IZR track_violations * 5)%R in
  Rmax 0 (base_score - time_penalty - violation_penalty).

(** ** Oscillation metrics ([analyze_oscillation.py], lines 112-146) *)

(** Lines 114-117: the number of places where [np.sign] differs between
    consecutive entries of the steering history. *)
Fixpoint sign_changes (history : list R) : nat :=
  match history with
  | x :: ((y :: _) as rest) =>
      ((if Req_dec_T (sign y) (sign x) then 0 else 1) + sign_changes rest)%nat
  | _ => 0%nat
  end.

(** Lines 112 and 137-146: the verdict printed for the run, if any. *)
Definition oscillation_verdict (steering_history : list R) : option string :=
  if (10 <? length steering_history)%nat then
    let oscillation_ratio :=
      (INR (sign_changes steering_history)
       / INR (length steering_history))%R in
    if Rgtb oscillation_ratio 0.3 then Some "HIGH OSCILLATION DETECTED"
    else if Rgtb oscillation_ratio 0.15 then Some "MODERATE OSCILLATION"
    else Some "LOW OSCILLATION"
  else None.

(** ** Parameter tuning ([test_runner.py], lines 163-210)

    [run_test] drives the external simulator; it enters as a function of
    the three tuned parameters. *)
Record test_result : Type := mk_test_result {
  lap_completed : bool;
  res_lap_time : R;
  res_track_violations : Z
}.

Record best_params : Type := mk_best_params {
  bp_velocity_kp : R;
  bp_steering_kp : R;
  bp_lookahead : R;
  bp_lap_time : R;
  bp_violations : Z
}.

(** Lines 171-175. *)
Definition param_grid : list (R * R * R) :=
  v_kp ← [1.0; 1.5; 2.0; 2.5; 3.0]%R;
  s_kp ← [1.5; 2.0; 2.5; 3.0; 3.5]%R;
  lookahead ← [10.0; 15.0; 20.0; 25.0]%R;
  [(v_kp, s_kp, lookahead)].

(** Lines 196: the quantity the search minimises. *)
Definition tuning_score (results : test_result) : R :=
  (res_lap_time results + IZR (res_track_violations results) * 10)%R.

Section Tuning.

Variable run_test : R -> R -> R -> test_result.

(** Lines 184-205: the body of the innermost loop.  The search state is
    [None] while [best_score] is still infinite and [best_params] empty. *)
Definition tune_step (best : option (R * best_params)) (g : R * R * R)
    : option (R * best_params) :=
  let '(v_kp, s_kp, lookahead) := g in
  let results := run_test v_kp s_kp lookahead in
  if lap_completed results then
    let score := tuning_score results in
    let improves :=
      match best with
      | None => true
      | Some (best_score, _) => Rltb score best_score
      end in
    if improves then
      Some (score,
            mk_best_params v_kp s_kp lookahead (res_lap_time results)
              (res_track_violations results))
    else best
  else best.

(** [tune_controller]: [None] stands for the empty dict it returns when
    no run completed a lap. *)
Definition tune_controller : option best_params :=
  snd <$> foldl tune_step None param_grid.

End Tuning.

(** [run_test] at one point of the grid. *)
Definition run_at (run_test : R -> R -> R -> test_result) (g : R * R * R)
    : test_result :=
  run_test g.1.1 g.1.2 g.2.

(** The grid point a search result stands for. *)
Definition best_point (bp : best_params) : R * R * R :=
  (bp_velocity_kp bp, bp_steering_kp bp, bp_lookahead bp).


(** * Properties *)

(** ** Basic facts about the runtime helpers *)

Lemma Rgtb_true (x y : R) : Rgtb x y = true <-> (y < x)%R.
Proof. unfold Rgtb; destruct (Rlt_dec y x); split; intros; try done. Qed.

Lemma Rgtb_false (x y : R) : Rgtb x y = false <-> (x <= y)%R.
Proof.
  unfold Rgtb; destruct (Rlt_dec y x); split; intros; try done; lra.
Qed.

Lemma Rltb_true (x y : R) : Rltb x y = true <-> (x < y)%R.
Proof. unfold Rltb; destruct (Rlt_dec x y); split; intros; try done. Qed.

Lemma Rltb_false (x y : R) : Rltb x y = false <-> (y <= x)%R.
Proof.
  unfold Rltb; destruct (Rlt_dec x y); split; intros; try done; lra.
Qed.

Lemma Rgeb_true (x y : R) : Rgeb x y = true <-> (y <= x)%R.
Proof. unfold Rgeb; destruct (Rle_dec y x); split; intros; try done. Qed.

Lemma Rgeb_false (x y : R) : Rgeb x y = false <-> (x < y)%R.
Proof.
  unfold Rgeb; destruct (Rle_dec y x); split; intros; try done; lra.
Qed.

Lemma clip_bounds (x lo hi : R) :
  (lo <= hi)%R -> (lo <= clip x lo hi <= hi)%R.
Proof.
  intros Hle. unfold clip, Rmin, Rmax.
  destruct (Rle_dec x lo); destruct (Rle_dec _ hi); lra.
Qed.

Lemma norm_nonneg (v : point) : (0 <= norm v)%R.
Proof. apply sqrt_pos. Qed.

(** On positive arguments [pow15] is the real power [x ^ 1.5]. *)
Lemma pow15_Rpower (x : R) : (0 < x)%R -> pow15 x = Rpower x 1.5.
Proof.
  intros Hx. unfold pow15.
  replace 1.5%R with (1 + / 2)%R by lra.
  rewrite Rpower_plus, Rpower_1, Rpower_sqrt; done.
Qed.

Lemma py_index_lookup {A : Type} (l : list A) (i : nat) (a : A) :
  l !! i = Some a -> py_index l (Z.of_nat i) = Ok a.
Proof.
  intros Hl. pose proof (lookup_lt_Some _ _ _ Hl) as Hlt.
  unfold py_index.
  destruct (Z.ltb_spec (Z.of_nat i) 0); [lia |].
  destruct (Z.leb_spec 0 (Z.of_nat i)); [| lia].
  destruct (Z.ltb_spec (Z.of_nat i) (Z.of_nat (length l))); [| lia].
  simpl. rewrite Nat2Z.id, Hl. done.
Qed.

(** ** Closest point: [np.argmin] returns the first minimiser *)

Lemma argmin_scan_first_min (l pre : list R) (bi : nat) (bv : R) :
  first_min pre bi bv ->
  exists i v,
    argmin_scan l (Z.of_nat (length pre)) (Z.of_nat bi) bv = Z.of_nat i /\
    first_min (pre ++ l) i v.
Proof.
  revert pre bi bv.
  induction l as [| y ys IH]; intros pre bi bv (Hbi & Hmin & Hfirst).
  - exists bi, bv. rewrite app_nil_r. done.
  - cbn [argmin_scan].
    replace (Z.of_nat (length pre) + 1)%Z
      with (Z.of_nat (length (pre ++ [y])))
      by (rewrite length_app; simpl; lia).
    replace (pre ++ y :: ys) with ((pre ++ [y]) ++ ys)
      by (rewrite <- app_assoc; done).
    pose proof (lookup_lt_Some _ _ _ Hbi) as Hlt.
    destruct (Rltb y bv) eqn:Hy.
    + apply Rltb_true in Hy.
      apply IH. repeat split.
      * rewrite lookup_app_r by lia.
        replace (length pre - length pre)%nat with 0%nat by lia. done.
      * intros j w Hj.
        destruct (decide (j < length pre)%nat) as [Hjl | Hjl].
        -- rewrite lookup_app_l in Hj by done.
           specialize (Hmin _ _ Hj). lra.
        -- rewrite lookup_app_r in Hj by lia.
           destruct (j - length pre)%nat; simpl in Hj; [| done].
           injection Hj as <-. lra.
      * intros j w Hjl Hj.
        rewrite lookup_app_l in Hj by done.
        specialize (Hmin _ _ Hj). lra.
    + apply Rltb_false in Hy.
      apply IH. repeat split.
      * rewrite lookup_app_l by done. done.
      * intros j w Hj.
        destruct (decide (j < length pre)%nat) as [Hjl | Hjl].
        -- rewrite lookup_app_l in Hj by done. eauto.
        -- rewrite lookup_app_r in Hj by lia.
           destruct (j - length pre)%nat; simpl in Hj; [| done].
           injection Hj as <-. done.
      * intros j w Hjl Hj.
        rewrite lookup_app_l in Hj by lia. eauto.
Qed.

Lemma argmin_first_min (l : list R) :
  l <> [] ->
  exists i v, argmin l = Ok (Z.of_nat i) /\ first_min l i v.
Proof.
  destruct l as [| x xs]; [done | intros _].
  destruct (argmin_scan_first_min xs [x] 0 x) as (i & v & Hi & Hfm).
  - repeat split.
    + intros [| j] w Hj; simpl in Hj; [| done]. injection Hj as <-. lra.
    + intros j w Hj. lia.
  - exists i, v. split; [| done].
    change (Z.of_nat (length [x])) with 1%Z in Hi.
    change (Z.of_nat 0) with 0%Z in Hi.
    unfold argmin. rewrite Hi. done.
Qed.

(** The part of the closest-point result the controller relies on. *)
Lemma closest_point_lookup
    (position : point) (track : track_t) (hint : pyval) :
  track <> [] ->
  exists (i : nat) (p : point),
    find_closest_point_on_track position track hint
      = Ok (Z.of_nat i, norm (psub p position)) /\
    track !! i = Some p.
Proof.
  intros Hne.
  set (dist := fun p : point => norm (psub p position)).
  destruct (argmin_first_min (map dist track)) as (i & v & Harg & Hi & _).
  { destruct track; done. }
  rewrite list_lookup_fmap in Hi.
  destruct (track !! i) as [p |] eqn:Hp; [| discriminate].
  assert (v = dist p) as -> by (cbn in Hi; congruence).
  exists i, p. split; [| done].
  unfold find_closest_point_on_track. fold dist. rewrite Harg. simpl.
  rewrite (py_index_lookup _ i (dist p)); [done |].
  rewrite list_lookup_fmap, Hp. done.
Qed.

(** C1.  On a non-empty track [find_closest_point_on_track] returns an
    index [i] of the track together with the Euclidean distance [d] from
    the position to point [i]; no point of the track is closer than [d],
    every point at a lower index is strictly farther (ties go to the
    lowest index), and the hint index has no influence on the result. *)
Theorem find_closest_point_is_first_argmin
    (position : point) (track : track_t) (hint : pyval) :
  track <> [] ->
  exists (i : nat) (p : point) (d : R),
    find_closest_point_on_track position track hint = Ok (Z.of_nat i, d) /\
    track !! i = Some p /\
    d = norm (psub p position) /\
    (forall j q, track !! j = Some q -> (d <= norm (psub q position))%R) /\
    (forall j q, (j < i)%nat -> track !! j = Some q ->
                 (d < norm (psub q position))%R) /\
    (forall hint',
        find_closest_point_on_track position track hint'
        = find_closest_point_on_track position track hint).
Proof.
  intros Hne.
  set (dist := fun p : point => norm (psub p position)).
  destruct (argmin_first_min (map dist track)) as (i & v & Harg & Hi & Hmin & Hfirst).
  { destruct track; done. }
  rewrite list_lookup_fmap in Hi.
  destruct (track !! i) as [p |] eqn:Hp; [| discriminate].
  assert (v = dist p) as -> by (cbn in Hi; congruence).
  exists i, p, (dist p). repeat split; try done.
  - unfold find_closest_point_on_track. fold dist. rewrite Harg. simpl.
    rewrite (py_index_lookup _ i (dist p)); [done |].
    rewrite list_lookup_fmap, Hp. done.
  - intros j q Hq. apply (Hmin j).
    rewrite list_lookup_fmap, Hq. done.
  - intros j q Hj Hq. apply (Hfirst j); [done |].
    rewrite list_lookup_fmap, Hq. done.
Qed.

Lemma find_closest_point_is_first_argmin_witness :
  exists (i : nat) (p : point) (d : R),
    find_closest_point_on_track (0, 0)%R [(3, 4)%R; (0, 0)%R] (PyInt 7)
      = Ok (Z.of_nat i, d) /\
    [(3, 4)%R; (0, 0)%R] !! i = Some p /\
    d = norm (psub p (0, 0)%R) /\
    (forall j q, [(3, 4)%R; (0, 0)%R] !! j = Some q ->
                 (d <= norm (psub q (0, 0)%R))%R) /\
    (forall j q, (j < i)%nat -> [(3, 4)%R; (0, 0)%R] !! j = Some q ->
                 (d < norm (psub q (0, 0)%R))%R) /\
    (forall hint',
        find_closest_point_on_track (0, 0)%R [(3, 4)%R; (0, 0)%R] hint'
        = find_closest_point_on_track (0, 0)%R [(3, 4)%R; (0, 0)%R] (PyInt 7)).
Proof.
  apply (find_closest_point_is_first_argmin (0, 0)%R [(3, 4)%R; (0, 0)%R]).
  discriminate.
Defined.

(** ** Indexing a non-empty track *)

Lemma py_index_track_at (track : track_t) (i : Z) :
  valid_index track i -> py_index track i = Ok (track_at track i).
Proof.
  unfold valid_index, py_index, track_at. intros Hi.
  set (n := Z.of_nat (length track)) in *.
  assert (Hmod : (i mod n)%Z = if (i <? 0)%Z then (n + i)%Z else i).
  { destruct (Z.ltb_spec i 0).
    - symmetry. apply Z.mod_unique_pos with (q := (-1)%Z); lia.
    - apply Z.mod_small; lia. }
  rewrite Hmod.
  destruct (i <? 0)%Z eqn:Hneg.
  - apply Z.ltb_lt in Hneg.
    destruct (Z.leb_spec 0 (n + i)); [| lia].
    destruct (Z.ltb_spec (n + i) n); [| lia]. simpl.
    destruct (track !! Z.to_nat (n + i)) as [a |] eqn:Ha.
    + erewrite nth_lookup_Some; done.
    + apply lookup_ge_None in Ha. lia.
  - apply Z.ltb_ge in Hneg.
    destruct (Z.leb_spec 0 i); [| lia].
    destruct (Z.ltb_spec i n); [| lia]. simpl.
    destruct (track !! Z.to_nat i) as [a |] eqn:Ha.
    + erewrite nth_lookup_Some; done.
    + apply lookup_ge_None in Ha. lia.
Qed.

Lemma mod_valid_index (track : track_t) (i : Z) :
  track <> [] ->
  (0 <= i mod Z.of_nat (length track) < Z.of_nat (length track))%Z.
Proof.
  intros Hne. apply Z.mod_pos_bound.
  destruct track; [done | simpl; lia].
Qed.

Lemma track_at_mod (track : track_t) (i : Z) :
  track_at track (i mod Z.of_nat (length track)) = track_at track i.
Proof. unfold track_at. rewrite Zmod_mod. done. Qed.

(** ** Arc length along the cycle *)

Lemma big_sum_ext (f g : nat -> R) (k : nat) :
  (forall j, (j < k)%nat -> f j = g j) -> big_sum f k = big_sum g k.
Proof.
  induction k as [| k IH]; intros Hfg; simpl; [done |].
  rewrite IH, Hfg; auto with lia.
Qed.

Lemma big_sum_shift (f : nat -> R) (k : nat) :
  big_sum f (S k) = (f 0%nat + big_sum (fun j => f (S j)) k)%R.
Proof.
  induction k as [| k IH]; [simpl; lra |].
  change (big_sum f (S (S k))) with (big_sum f (S k) + f (S k))%R.
  rewrite IH. simpl. lra.
Qed.

Lemma big_sum_mono (f : nat -> R) (j k : nat) :
  (forall i, 0 <= f i)%R -> (j <= k)%nat -> (big_sum f j <= big_sum f k)%R.
Proof.
  intros Hf Hjk. induction Hjk as [| k Hjk IH]; [lra |].
  simpl. specialize (Hf k). lra.
Qed.

Lemma track_at_succ_mod (track : track_t) (i : Z) :
  track_at track (i mod Z.of_nat (length track) + 1) = track_at track (i + 1).
Proof. unfold track_at. rewrite Zplus_mod_idemp_l. done. Qed.

Lemma segment_length_nonneg (track : track_t) (i : Z) :
  (0 <= segment_length track i)%R.
Proof. apply norm_nonneg. Qed.

Lemma segment_length_mod (track : track_t) (i : Z) :
  segment_length track (i mod Z.of_nat (length track))
  = segment_length track i.
Proof.
  unfold segment_length. rewrite track_at_succ_mod, track_at_mod. done.
Qed.

Lemma segment_length_period (track : track_t) (i : Z) :
  segment_length track (i + Z.of_nat (length track))
  = segment_length track i.
Proof.
  rewrite <- (segment_length_mod track (i + _)), <- (segment_length_mod track i).
  f_equal.
  destruct (decide (Z.of_nat (length track) = 0%Z)) as [-> | Hn].
  - rewrite !Z.mod_0_r. lia.
  - rewrite <- (Z.mul_1_l (Z.of_nat (length track))) at 1.
    apply Z.mod_add. done.
Qed.

Lemma arc_length_succ (track : track_t) (start : Z) (k : nat) :
  arc_length track start (S k)
  = (segment_length track start + arc_length track (start + 1) k)%R.
Proof.
  unfold arc_length. rewrite big_sum_shift.
  f_equal; [f_equal; lia |].
  apply big_sum_ext. intros j _. f_equal. lia.
Qed.

Lemma arc_length_mod (track : track_t) (start : Z) (k : nat) :
  arc_length track (start mod Z.of_nat (length track)) k
  = arc_length track start k.
Proof.
  apply big_sum_ext. intros j _.
  rewrite <- (segment_length_mod track (_ + _)).
  rewrite Zplus_mod_idemp_l. apply segment_length_mod.
Qed.

Lemma arc_length_mono (track : track_t) (start : Z) (j k : nat) :
  (j <= k)%nat -> (arc_length track start j <= arc_length track start k)%R.
Proof.
  apply big_sum_mono. intros i. apply segment_length_nonneg.
Qed.

(** One turn of the cycle has the same length from every start. *)
Lemma arc_length_full_turn_succ (track : track_t) (start : Z) :
  arc_length track (start + 1) (length track)
  = arc_length track start (length track).
Proof.
  pose proof (arc_length_succ track start (length track)) as Hs.
  unfold arc_length in *. simpl in Hs.
  rewrite segment_length_period in Hs. lra.
Qed.

Lemma arc_length_full_turn (track : track_t) (start : Z) :
  arc_length track start (length track) = track_length track.
Proof.
  unfold track_length.
  destruct (Z.le_gt_cases 0 start) as [Hpos | Hneg].
  - pattern start. apply natlike_ind; [done | | done].
    intros x _ IH. rewrite <- IH. apply arc_length_full_turn_succ.
  - replace start with (- Z.of_nat (Z.to_nat (- start)))%Z by lia.
    induction (Z.to_nat (- start)) as [| m IH]; [done |].
    rewrite <- IH, <- (arc_length_full_turn_succ track (- Z.of_nat (S m))).
    f_equal. lia.
Qed.

(** ** The lookahead walk *)

Lemma checked_div_ok (a b : R) : b <> 0%R -> checked_div a b = Ok (a / b)%R.
Proof. intros Hb. unfold checked_div. destruct (Req_dec_T b 0); done. Qed.

Lemma py_mod_ok (a b : Z) : b <> 0%Z -> py_mod a b = Ok (a mod b)%Z.
Proof.
  intros Hb. unfold py_mod. destruct (Z.eqb_spec b 0); done.
Qed.

Lemma valid_index_mod (track : track_t) (i : Z) :
  track <> [] -> valid_index track (i mod Z.of_nat (length track)).
Proof.
  intros Hne. pose proof (mod_valid_index track i Hne).
  unfold valid_index. lia.
Qed.

(** One loop body, on a valid index. *)
Lemma lookahead_walk_step (track : track_t) (d : R)
    (fuel : nat) (acc : R) (cur : Z) (steps : nat) :
  track <> [] -> valid_index track cur ->
  lookahead_walk track d (S fuel) acc cur steps =
    if Rgeb (acc + segment_length track cur) d then
      Ok (interpolate (track_at track cur) (track_at track (cur + 1)) d acc,
          ((cur + 1) mod Z.of_nat (length track))%Z, S steps)
    else
      lookahead_walk track d fuel (acc + segment_length track cur)
        ((cur + 1) mod Z.of_nat (length track))%Z (S steps).
Proof.
  intros Hne Hcur. cbn [lookahead_walk].
  rewrite py_mod_ok by (destruct track; [done | simpl; lia]).
  cbn [rbind].
  rewrite (py_index_track_at track (_ mod _)) by (apply valid_index_mod; done).
  rewrite track_at_mod. cbn [rbind].
  rewrite py_index_track_at by done. cbn [rbind].
  fold (segment_length track cur).
  destruct (Rgeb (acc + segment_length track cur) d); [| done].
  rewrite checked_div_ok; [done |].
  pose proof (Rmax_r (segment_length track cur) 0.001). lra.
Qed.

(** The walk always returns.  It stops after [k] loop bodies, where [k]
    is the first count at which the accumulated length reaches the
    lookahead distance, or [fuel] when no count does; in the latter case
    it returns the track point it stands on. *)
Lemma lookahead_walk_spec (track : track_t) (d : R)
    (fuel : nat) (acc : R) (cur : Z) (steps : nat) :
  track <> [] -> valid_index track cur ->
  exists (p : point) (k : nat),
    lookahead_walk track d fuel acc cur steps
      = Ok (p, walk_index track cur k, (steps + k)%nat) /\
    (k <= fuel)%nat /\
    ((0 < fuel)%nat -> (0 < k)%nat) /\
    (forall j, (0 < j < k)%nat -> (acc + arc_length track cur j < d)%R) /\
    (((0 < k)%nat /\ (d <= acc + arc_length track cur k)%R) \/
     (k = fuel /\ ((0 < k)%nat -> (acc + arc_length track cur k < d)%R) /\
      p = track_at track (cur + Z.of_nat fuel))).
Proof.
  intros Hne. revert acc cur steps.
  induction fuel as [| fuel IH]; intros acc cur steps Hcur.
  - exists (track_at track cur), 0%nat. repeat split; try lia.
    + cbn [lookahead_walk]. rewrite py_index_track_at by done.
      cbn. rewrite Nat.add_0_r. done.
    + right. repeat split; [lia |]. f_equal. lia.
  - rewrite lookahead_walk_step by done.
    assert (Harc1 : arc_length track cur 1 = segment_length track cur).
    { rewrite arc_length_succ. unfold arc_length. simpl. lra. }
    destruct (Rgeb (acc + segment_length track cur) d) eqn:Hhit.
    + apply Rgeb_true in Hhit.
      eexists _, 1%nat. repeat split; try lia.
      * cbn [walk_index]. rewrite Nat.add_1_r. done.
      * left. rewrite Harc1. split; [lia | done].
    + apply Rgeb_false in Hhit.
      destruct (IH (acc + segment_length track cur)%R
                   ((cur + 1) mod Z.of_nat (length track))%Z (S steps))
        as (p & k & Hw & Hk & Hpos & Hfirst & Hend).
      { apply valid_index_mod. done. }
      assert (Hshift : forall j,
                 (acc + arc_length track cur (S j)
                  = acc + segment_length track cur
                    + arc_length track
                        ((cur + 1) mod Z.of_nat (length track)) j)%R).
      { intros j. rewrite arc_length_succ, arc_length_mod. lra. }
      exists p, (S k). repeat split; try lia.
      * rewrite Hw, Nat.add_succ_r. do 3 f_equal.
        unfold walk_index. destruct k as [| k'].
        -- f_equal; lia.
        -- rewrite Zplus_mod_idemp_l. f_equal; lia.
      * intros [| j] Hj; [lia |].
        destruct j as [| j'].
        -- rewrite Harc1. done.
        -- rewrite Hshift. apply Hfirst. lia.
      * destruct Hend as [(Hk0 & Hreach) | (-> & Hover & ->)].
        -- left. split; [lia |]. rewrite Hshift. done.
        -- right. repeat split.
           ++ intros _. rewrite Hshift.
              destruct fuel as [| f'].
              ** unfold arc_length. simpl. lra.
              ** apply Hover. lia.
           ++ unfold track_at. f_equal. f_equal.
              rewrite Zplus_mod_idemp_l. f_equal. lia.
Qed.

Lemma forward_steps_walk_index (track : track_t) (start : Z) (k : nat) :
  track <> [] -> (0 < k <= length track)%nat ->
  forward_steps track start (walk_index track start k) = k.
Proof.
  intros Hne Hk. unfold forward_steps, walk_index.
  destruct k as [| k']; [lia |].
  set (n := Z.of_nat (length track)).
  assert (Hn : (0 < n)%Z) by (unfold n; lia).
  replace ((start + Z.of_nat (S k')) mod n - start - 1)%Z
    with ((start + Z.of_nat (S k')) mod n - (start + 1))%Z by lia.
  rewrite Zminus_mod_idemp_l.
  replace (start + Z.of_nat (S k') - (start + 1))%Z with (Z.of_nat k') by lia.
  rewrite Z.mod_small by (unfold n; lia).
  rewrite Nat2Z.id. done.
Qed.

(** When the lookahead distance exceeds one full turn from [start], the
    loop runs all its iterations and falls through with the index back on
    the start point. *)
Lemma lookahead_walk_overflow (track : track_t) (start : Z) (d : R) :
  track <> [] -> valid_index track start -> (track_length track < d)%R ->
  lookahead_walk track d (length track) 0 start 0
  = Ok (track_at track start,
        (start mod Z.of_nat (length track))%Z, length track).
Proof.
  intros Hne Hstart Hd.
  assert (Hlen : (0 < length track)%nat) by (destruct track; [done | simpl; lia]).
  destruct (lookahead_walk_spec track d (length track) 0 start 0 Hne Hstart)
    as (p & k & Hw & Hk & Hpos & Hfirst & Hend).
  destruct Hend as [(Hk0 & Hreach) | (-> & _ & ->)].
  - pose proof (arc_length_mono track start k (length track) Hk) as Hm.
    rewrite arc_length_full_turn in Hm. lra.
  - rewrite Hw. unfold walk_index.
    destruct (length track) as [| m] eqn:Hm; [lia |]. rewrite <- Hm.
    do 3 f_equal.
    + unfold track_at. f_equal. f_equal.
      rewrite <- (Z.mul_1_l (Z.of_nat (length track))) at 1.
      apply Z.mod_add. lia.
    + rewrite <- (Z.mul_1_l (Z.of_nat (length track))) at 1.
      apply Z.mod_add. lia.
Qed.

(** C4 (amended).  If the lookahead distance exceeds the total track
    length, [find_lookahead_point] executes exactly [length track] loop
    bodies and returns the point one full turn ahead, which is the start
    point itself, with the start index (normalised into [0, n)). *)
Theorem find_lookahead_point_overflow_returns_start
    (position : point) (track : track_t) (start_idx : Z) (lookahead_dist : R) :
  track <> [] -> valid_index track start_idx ->
  (track_length track < lookahead_dist)%R ->
  find_lookahead_point position track start_idx lookahead_dist
    = Ok (track_at track start_idx,
          (start_idx mod Z.of_nat (length track))%Z) /\
  find_lookahead_steps track start_idx lookahead_dist = Ok (length track) /\
  ((0 <= start_idx)%Z ->
   (start_idx mod Z.of_nat (length track))%Z = start_idx /\
   track !! Z.to_nat start_idx = Some (track_at track start_idx)).
Proof.
  intros Hne Hstart Hd.
  unfold find_lookahead_point, find_lookahead_steps.
  rewrite lookahead_walk_overflow by done. repeat split.
  - apply Z.mod_small. unfold valid_index in Hstart. lia.
  - unfold track_at. unfold valid_index in Hstart.
    rewrite Z.mod_small by lia.
    destruct (nth_lookup_or_length track (Z.to_nat start_idx) (0%R, 0%R));
      [done | lia].
Qed.

(** Evaluating a norm whose value is known. *)
Lemma norm_eq (v : point) (r : R) :
  (0 <= r)%R -> (v.1 * v.1 + v.2 * v.2 = r * r)%R -> norm v = r.
Proof.
  intros Hr Hsq. unfold norm. rewrite Hsq. apply sqrt_square. done.
Qed.

Lemma two_point_track_length : track_length two_point_track = 2%R.
Proof.
  unfold track_length, arc_length, segment_length, two_point_track.
  cbn [big_sum length]. eval_track_at.
  rewrite (norm_eq _ 1), (norm_eq _ 1); cbn; lra.
Qed.

Lemma two_point_track_overflow :
  find_lookahead_point (0, 0)%R two_point_track 0 100
  = Ok ((0, 0)%R, 0%Z).
Proof.
  unfold find_lookahead_point.
  rewrite lookahead_walk_overflow.
  - done.
  - discriminate.
  - unfold valid_index. simpl. lia.
  - rewrite two_point_track_length. lra.
Qed.

Lemma find_lookahead_point_overflow_returns_start_witness :
  find_lookahead_point (0, 0)%R two_point_track 0 100
    = Ok (track_at two_point_track 0,
          (0 mod Z.of_nat (length two_point_track))%Z) /\
  find_lookahead_steps two_point_track 0 100
    = Ok (length two_point_track) /\
  ((0 <= 0)%Z ->
   (0 mod Z.of_nat (length two_point_track))%Z = 0%Z /\
   two_point_track !! Z.to_nat 0 = Some (track_at two_point_track 0)).
Proof.
  apply (find_lookahead_point_overflow_returns_start
           (0, 0)%R two_point_track 0 100).
  - discriminate.
  - unfold valid_index. simpl. lia.
  - rewrite two_point_track_length. lra.
Defined.

(** C4 as stated fails: with the lookahead distance beyond the track
    length the walk from index 0 of the two-point track returns index 0,
    the start point, and not index 1, its cyclic predecessor. *)
Lemma find_lookahead_point_overflow_not_predecessor :
  (track_length two_point_track < 100)%R /\
  find_lookahead_point (0, 0)%R two_point_track 0 100
    = Ok ((0, 0)%R, 0%Z) /\
  find_lookahead_point (0, 0)%R two_point_track 0 100
    <> Ok (track_at two_point_track (0 - 1),
           ((0 - 1) mod Z.of_nat (length two_point_track))%Z).
Proof.
  split; [rewrite two_point_track_length; lra |].
  split; [apply two_point_track_overflow |].
  rewrite two_point_track_overflow. intros Heq.
  injection Heq as _ Hidx. vm_compute in Hidx. discriminate.
Qed.

(** ** Lookahead monotonicity *)

(** Within the track length the walk stops in the loop, [k] segments
    ahead of the start, where [k] is the first count whose arc length
    reaches the lookahead distance. *)
Lemma lookahead_walk_within (track : track_t) (start : Z) (d : R) :
  track <> [] -> valid_index track start -> (d <= track_length track)%R ->
  exists (p : point) (k : nat),
    lookahead_walk track d (length track) 0 start 0
      = Ok (p, walk_index track start k, k) /\
    (0 < k <= length track)%nat /\
    (forall j, (0 < j < k)%nat -> (arc_length track start j < d)%R) /\
    (d <= arc_length track start k)%R.
Proof.
  intros Hne Hstart Hd.
  assert (Hlen : (0 < length track)%nat) by (destruct track; [done | simpl; lia]).
  destruct (lookahead_walk_spec track d (length track) 0 start 0 Hne Hstart)
    as (p & k & Hw & Hk & Hpos & Hfirst & Hend).
  exists p, k. split; [| split; [| split]].
  - rewrite Hw. done.
  - specialize (Hpos Hlen). lia.
  - intros j Hj. specialize (Hfirst j Hj). lra.
  - destruct Hend as [(_ & Hreach) | (-> & Hover & _)]; [lra |].
    specialize (Hover Hlen). rewrite arc_length_full_turn in Hover. lra.
Qed.

(** C8.  For a fixed start index and lookahead distances [d1 <= d2] within
    the track length, both calls return, and the index returned for [d2]
    lies at least as many segments, and at least as much arc length,
    forward of the start along the cycle as the index returned for [d1];
    each returned index is at or beyond its lookahead distance. *)
Theorem find_lookahead_point_monotone
    (position : point) (track : track_t) (start_idx : Z) (d1 d2 : R) :
  track <> [] -> valid_index track start_idx ->
  (d1 <= d2)%R -> (d2 <= track_length track)%R ->
  exists (p1 : point) (i1 : Z) (p2 : point) (i2 : Z),
    find_lookahead_point position track start_idx d1 = Ok (p1, i1) /\
    find_lookahead_point position track start_idx d2 = Ok (p2, i2) /\
    (forward_steps track start_idx i1
     <= forward_steps track start_idx i2)%nat /\
    (arc_length track start_idx (forward_steps track start_idx i1)
     <= arc_length track start_idx (forward_steps track start_idx i2))%R /\
    (d1 <= arc_length track start_idx (forward_steps track start_idx i1))%R /\
    (d2 <= arc_length track start_idx (forward_steps track start_idx i2))%R.
Proof.
  intros Hne Hstart Hle Hd2.
  destruct (lookahead_walk_within track start_idx d1 Hne Hstart)
    as (p1 & k1 & Hw1 & Hk1 & Hfirst1 & Hreach1); [lra |].
  destruct (lookahead_walk_within track start_idx d2 Hne Hstart Hd2)
    as (p2 & k2 & Hw2 & Hk2 & Hfirst2 & Hreach2).
  exists p1, (walk_index track start_idx k1), p2, (walk_index track start_idx k2).
  unfold find_lookahead_point. rewrite Hw1, Hw2. cbn [rbind fst snd].
  rewrite !forward_steps_walk_index by done.
  assert (Hk : (k1 <= k2)%nat).
  { destruct (le_lt_dec k1 k2) as [| Hlt]; [done |].
    assert (arc_length track start_idx k2 < d1)%R by (apply Hfirst1; lia).
    lra. }
  split; [done |]. split; [done |]. split; [done |].
  split; [apply arc_length_mono; done |]. split; done.
Qed.

Lemma find_lookahead_point_monotone_witness :
  exists (p1 : point) (i1 : Z) (p2 : point) (i2 : Z),
    find_lookahead_point (0, 0)%R two_point_track 0 0.5 = Ok (p1, i1) /\
    find_lookahead_point (0, 0)%R two_point_track 0 1.5 = Ok (p2, i2) /\
    (forward_steps two_point_track 0 i1
     <= forward_steps two_point_track 0 i2)%nat /\
    (arc_length two_point_track 0 (forward_steps two_point_track 0 i1)
     <= arc_length two_point_track 0 (forward_steps two_point_track 0 i2))%R /\
    (0.5 <= arc_length two_point_track 0 (forward_steps two_point_track 0 i1))%R /\
    (1.5 <= arc_length two_point_track 0 (forward_steps two_point_track 0 i2))%R.
Proof.
  apply (find_lookahead_point_monotone (0, 0)%R two_point_track 0 0.5 1.5).
  - discriminate.
  - unfold valid_index. simpl. lia.
  - lra.
  - rewrite two_point_track_length. lra.
Defined.

(** ** Curvature *)

Lemma calculate_curvature_unfold (track : track_t) (idx window : Z) :
  track <> [] -> valid_index track idx ->
  calculate_curvature track idx window =
    let p1 := track_at track (idx - window) in
    let p2 := track_at track idx in
    let p3 := track_at track (idx + window) in
    if Rgtb (chord_denominator p1 p2 p3) 1e-6
    then Ok (chord_curvature p1 p2 p3)
    else Ok 0%R.
Proof.
  intros Hne Hidx. unfold calculate_curvature.
  assert (Hn : Z.of_nat (length track) <> 0%Z)
    by (destruct track; [done | simpl; lia]).
  rewrite !py_mod_ok by done. cbn [rbind].
  rewrite !(py_index_track_at track (_ mod _)) by (apply valid_index_mod; done).
  rewrite py_index_track_at by done.
  rewrite !track_at_mod. cbn [rbind]. cbv zeta.
  fold (chord_denominator (track_at track (idx - window)) (track_at track idx)
          (track_at track (idx + window))).
  destruct (Rgtb _ 1e-6) eqn:Hd; [| done].
  apply Rgtb_true in Hd.
  rewrite checked_div_ok by lra. cbn [rbind]. f_equal.
  unfold chord_curvature, Rdiv. fold (chord_denominator (track_at track (idx - window))
    (track_at track idx) (track_at track (idx + window))).
  rewrite Rabs_mult, Rabs_inv. f_equal. f_equal. apply Rabs_pos_eq. lra.
Qed.




(** ** The outer layer returns *)

Lemma find_lookahead_point_ok
    (position : point) (track : track_t) (start_idx : Z) (d : R) :
  track <> [] -> valid_index track start_idx ->
  exists (p : point) (i : Z),
    find_lookahead_point position track start_idx d = Ok (p, i) /\
    (0 <= i < Z.of_nat (length track))%Z.
Proof.
  intros Hne Hstart.
  assert (Hlen : (0 < length track)%nat) by (destruct track; [done | simpl; lia]).
  destruct (lookahead_walk_spec track d (length track) 0 start_idx 0 Hne Hstart)
    as (p & k & Hw & _ & Hpos & _).
  exists p, (walk_index track start_idx k). split.
  - unfold find_lookahead_point. rewrite Hw. done.
  - specialize (Hpos Hlen). unfold walk_index.
    destruct k as [| k']; [lia |]. apply mod_valid_index. done.
Qed.

Lemma pure_pursuit_steering_ok
    (x y heading : R) (lookahead_point : point) (cross_track_error : R) :
  exists s : R,
    pure_pursuit_steering x y heading lookahead_point cross_track_error = Ok s /\
    (-0.9 <= s <= 0.9)%R.
Proof.
  unfold pure_pursuit_steering.
  set (L := sqrt _).
  destruct (Rgtb L 0.1) eqn:HL.
  - apply Rgtb_true in HL.
    rewrite checked_div_ok by nra. cbn [rbind].
    destruct (Rgtb cross_track_error 1.5); cbn [rbind];
      eexists; (split; [done | apply clip_bounds; lra]).
  - cbn [rbind]. eexists. split; [done | apply clip_bounds; lra].
Qed.

Lemma calculate_curvature_ok (track : track_t) (idx window : Z) :
  track <> [] -> valid_index track idx ->
  exists c : R, calculate_curvature track idx window = Ok c.
Proof.
  intros Hne Hidx. rewrite calculate_curvature_unfold by done. cbv zeta.
  destruct (Rgtb _ _); eexists; done.
Qed.

(** What [controller_core] computes, local by local. *)
Lemma controller_core_ok
    (x y velocity heading : R) (track : track_t)
    (closest_idx : Z) (cross_track_error : R) :
  track <> [] -> valid_index track closest_idx ->
  exists l : locals,
    controller_core x y velocity heading track closest_idx cross_track_error
      = Ok l /\
    l_closest_idx l = closest_idx /\
    l_cross_track_error l = cross_track_error /\
    find_lookahead_point (x, y) track closest_idx
        (lookahead_distance velocity cross_track_error)
      = Ok (l_lookahead_point l, l_lookahead_idx l) /\
    (-0.9 <= l_desired_steering l <= 0.9)%R /\
    calculate_curvature track (l_lookahead_idx l) default_window
      = Ok (l_curvature l) /\
    l_planned_velocity l
      = offtrack_speed (curvature_speed (l_curvature l)) cross_track_error /\
    l_target_velocity l = rate_limit (l_planned_velocity l) velocity.
Proof.
  intros Hne Hidx. unfold controller_core.
  destruct (find_lookahead_point_ok (x, y) track closest_idx
              (lookahead_distance velocity cross_track_error) Hne Hidx)
    as (p & i & Hfl & Hi).
  rewrite Hfl. cbn [rbind fst snd].
  destruct (pure_pursuit_steering_ok x y heading p cross_track_error)
    as (s & Hs & Hrange).
  rewrite Hs. cbn [rbind].
  destruct (calculate_curvature_ok track i default_window Hne) as (c & Hc).
  { unfold valid_index. lia. }
  rewrite Hc. cbn [rbind].
  eexists. split; [done |]. cbn. done.
Qed.

(** Reading the state vector. *)
Lemma state_components (state : list R) :
  (5 <= length state)%nat ->
  exists x y steering velocity heading,
    py_index state 0 = Ok x /\ py_index state 1 = Ok y /\
    py_index state 2 = Ok steering /\ py_index state 3 = Ok velocity /\
    py_index state 4 = Ok heading /\
    state !! 0%nat = Some x /\ state !! 1%nat = Some y /\
    state !! 3%nat = Some velocity.
Proof.
  intros Hlen.
  destruct state as [| x [| y [| st [| v [| h rest]]]]]; simpl in Hlen; try lia.
  exists x, y, st, v, h.
  split; [apply (py_index_lookup _ 0); done |].
  split; [apply (py_index_lookup _ 1); done |].
  split; [apply (py_index_lookup _ 2); done |].
  split; [apply (py_index_lookup _ 3); done |].
  split; [apply (py_index_lookup _ 4); done | done].
Qed.

(** One evaluation of the outer layer on a state of at least five
    components and a non-empty centerline: it returns, writes the closest
    index under ["last_idx"], and its locals are related as in the code. *)
Lemma controller_run
    (state parameters : list R) (racetrack : RaceTrack) (σ : store) :
  (5 <= length state)%nat -> centerline racetrack <> [] ->
  exists (l : locals) (velocity : R),
    state !! 3%nat = Some velocity /\
    controller_locals state parameters racetrack σ
      = (Ok l, <["last_idx" := PyInt (l_closest_idx l)]> σ) /\
    controller state parameters racetrack σ
      = (Ok (np_array [l_desired_steering l; l_target_velocity l]),
         <["last_idx" := PyInt (l_closest_idx l)]> σ) /\
    valid_index (centerline racetrack) (l_closest_idx l) /\
    (-0.9 <= l_desired_steering l <= 0.9)%R /\
    calculate_curvature (centerline racetrack) (l_lookahead_idx l)
        default_window = Ok (l_curvature l) /\
    l_planned_velocity l
      = offtrack_speed (curvature_speed (l_curvature l))
          (l_cross_track_error l) /\
    l_target_velocity l = rate_limit (l_planned_velocity l) velocity /\
    exists x y : R,
      state !! 0%nat = Some x /\ state !! 1%nat = Some y /\
      find_closest_point_on_track (x, y) (centerline racetrack)
          (default (PyInt 0) (σ !! "last_idx"))
        = Ok (l_closest_idx l, l_cross_track_error l) /\
      find_lookahead_point (x, y) (centerline racetrack) (l_closest_idx l)
          (lookahead_distance velocity (l_cross_track_error l))
        = Ok (l_lookahead_point l, l_lookahead_idx l).
Proof.
  intros Hlen Hne.
  destruct (state_components state Hlen)
    as (x & y & st & v & h & H0 & H1 & _ & H3 & H4 & Hx & Hy & Hv).
  destruct (closest_point_lookup (x, y) (centerline racetrack)
              (default (PyInt 0) (σ !! "last_idx")) Hne)
    as (i & p & Hfc & Hp).
  assert (Hvalid : valid_index (centerline racetrack) (Z.of_nat i)).
  { apply lookup_lt_Some in Hp. unfold valid_index. lia. }
  destruct (controller_core_ok x y v h (centerline racetrack) (Z.of_nat i)
              (norm (psub p (x, y))) Hne Hvalid)
    as (l & Hcore & Hci & Hcte & Hla & Hsteer & Hcurv & Hplan & Htarget).
  assert (Hloc : controller_locals state parameters racetrack σ
                 = (Ok l, <["last_idx" := PyInt (l_closest_idx l)]> σ)).
  { unfold controller_locals, mbind, lift, dict_get, dict_set.
    rewrite H0, H1, H3, H4, Hfc. cbn [fst snd]. rewrite Hcore, Hci. done. }
  exists l, v. split; [done |]. split; [done |]. split.
  { unfold controller, mbind, mret. rewrite Hloc. done. }
  rewrite Hci, Hcte.
  split; [done |]. split; [done |]. split; [done |]. split; [done |].
  split; [done |]. exists x, y. done.
Qed.

(** ** Evaluating the code on literal inputs *)

(** Decide the float comparisons, [min], [max] and [clip] of a goal whose
    operands are literals. *)
Ltac decide_reals :=
  unfold clip;
  repeat match goal with
    | |- context [Rgtb ?a ?b] =>
        first [ rewrite (proj2 (Rgtb_true a b)) by lra
              | rewrite (proj2 (Rgtb_false a b)) by lra ]
    | |- context [Rltb ?a ?b] =>
        first [ rewrite (proj2 (Rltb_true a b)) by lra
              | rewrite (proj2 (Rltb_false a b)) by lra ]
    | |- context [Rgeb ?a ?b] =>
        first [ rewrite (proj2 (Rgeb_true a b)) by lra
              | rewrite (proj2 (Rgeb_false a b)) by lra ]
    | |- context [Rmin ?a ?b] =>
        first [ rewrite (Rmin_left a b) by lra
              | rewrite (Rmin_right a b) by lra ]
    | |- context [Rmax ?a ?b] =>
        first [ rewrite (Rmax_left a b) by lra
              | rewrite (Rmax_right a b) by lra ]
    end.

Lemma sqrt_of_zero (x : R) : x = 0%R -> sqrt x = 0%R.
Proof. intros ->. apply sqrt_0. Qed.

Lemma norm_zero : norm (0, 0)%R = 0%R.
Proof. apply norm_eq; cbn; lra. Qed.






(** ** Totality of the outer layer *)

Lemma pure_pursuit_steering_degenerate
    (x y heading : R) (lookahead_point : point) (cross_track_error : R) :
  (pursuit_distance x y heading lookahead_point <= 0.1)%R ->
  pure_pursuit_steering x y heading lookahead_point cross_track_error
  = Ok 0%R.
Proof.
  intros HL. unfold pure_pursuit_steering.
  fold (pursuit_distance x y heading lookahead_point).
  apply Rgtb_false in HL. rewrite HL. cbn [rbind].
  decide_reals. done.
Qed.

(** C3.  On a five-component state and a non-empty centerline the outer
    layer returns a [desired_steering, target_velocity] pair: no index
    goes out of range and no division meets a zero divisor.  In the
    degenerate pure-pursuit branch ([L] not above 0.1) the steering is 0. *)
Theorem controller_total
    (state parameters : list R) (racetrack : RaceTrack) (σ : store) :
  length state = 5%nat -> centerline racetrack <> [] ->
  (exists (desired_steering target_velocity : R) (σ' : store),
      controller state parameters racetrack σ
      = (Ok (np_array [desired_steering; target_velocity]), σ')) /\
  (forall x y heading lookahead_point cross_track_error,
      (pursuit_distance x y heading lookahead_point <= 0.1)%R ->
      pure_pursuit_steering x y heading lookahead_point cross_track_error
      = Ok 0%R).
Proof.
  intros Hlen Hne. split.
  - destruct (controller_run state parameters racetrack σ) as (l & v & _ & _ & Hc & _);
      [lia | done |].
    eauto.
  - apply pure_pursuit_steering_degenerate.
Qed.

Lemma controller_total_witness :
  (exists (desired_steering target_velocity : R) (σ' : store),
      controller state_off_corner [] square_track ∅
      = (Ok (np_array [desired_steering; target_velocity]), σ')) /\
  (forall x y heading lookahead_point cross_track_error,
      (pursuit_distance x y heading lookahead_point <= 0.1)%R ->
      pure_pursuit_steering x y heading lookahead_point cross_track_error
      = Ok 0%R).
Proof.
  apply (controller_total state_off_corner [] square_track ∅).
  - reflexivity.
  - discriminate.
Defined.

(** ** The speed rate limiter *)





(** ** The inner layer *)

Lemma lower_controller_shape_violation
    (state : list R) (desired : ndarray) (parameters : list R) (σ : store) :
  shape desired <> [2%nat] ->
  lower_controller state desired parameters σ = (Raise AssertionError, σ).
Proof.
  intros Hshape. unfold lower_controller, lift.
  rewrite bool_decide_eq_false_2 by done. done.
Qed.

Lemma lower_controller_run
    (state : list R) (desired : ndarray) (parameters : list R) (σ : store) :
  (4 <= length state)%nat -> wf_ndarray desired -> shape desired = [2%nat] ->
  exists (steering_velocity acceleration : R),
    lower_controller state desired parameters σ
      = (Ok (np_array [steering_velocity; acceleration]), σ) /\
    (-0.4 <= steering_velocity <= 0.4)%R /\
    (-15 <= acceleration <= 15)%R.
Proof.
  intros Hlen Hwf Hshape.
  destruct state as [| x [| y [| st [| v rest]]]]; simpl in Hlen; try lia.
  unfold wf_ndarray in Hwf. rewrite Hshape in Hwf. simpl in Hwf.
  destruct desired as [sh [| ds [| dv [| ? ?]]]]; simpl in *; try lia.
  unfold lower_controller, lift. cbn [shape data].
  rewrite bool_decide_eq_true_2 by done. cbn [py_assert rbind].
  rewrite (py_index_lookup _ 2 st), (py_index_lookup _ 3 v) by done.
  cbn [rbind].
  rewrite (py_index_lookup _ 0 ds), (py_index_lookup _ 1 dv) by done.
  cbn [rbind].
  eexists _, _. split; [done |].
  split; [apply clip_bounds; lra |].
  match goal with
  | |- (_ <= clip ?a ?lo ?hi <= _)%R =>
      pose proof (clip_bounds a lo hi); lra
  end.
Qed.

(** C6.  The steering angle commanded by the outer layer lies in
    [-0.9, 0.9], and the steering rate commanded by the inner layer lies
    in [-0.4, 0.4]. *)
Theorem steering_commands_clamped :
  (forall (state parameters : list R) (racetrack : RaceTrack) (σ : store),
      (5 <= length state)%nat -> centerline racetrack <> [] ->
      exists (desired_steering target_velocity : R) (σ' : store),
        controller state parameters racetrack σ
          = (Ok (np_array [desired_steering; target_velocity]), σ') /\
        (-0.9 <= desired_steering <= 0.9)%R) /\
  (forall (state : list R) (desired : ndarray) (parameters : list R)
          (σ : store),
      (4 <= length state)%nat -> wf_ndarray desired ->
      shape desired = [2%nat] ->
      exists (steering_velocity acceleration : R),
        lower_controller state desired parameters σ
          = (Ok (np_array [steering_velocity; acceleration]), σ) /\
        (-0.4 <= steering_velocity <= 0.4)%R).
Proof.
  split.
  - intros state parameters racetrack σ Hlen Hne.
    destruct (controller_run state parameters racetrack σ Hlen Hne)
      as (l & v & _ & _ & Hc & _ & Hsteer & _).
    exists (l_desired_steering l), (l_target_velocity l),
      (<["last_idx" := PyInt (l_closest_idx l)]> σ).
    done.
  - intros state desired parameters σ Hlen Hwf Hshape.
    destruct (lower_controller_run state desired parameters σ Hlen Hwf Hshape)
      as (r & a & Hrun & Hr & _).
    exists r, a. done.
Qed.

Lemma steering_commands_clamped_witness :
  (exists (desired_steering target_velocity : R) (σ' : store),
      controller state_off_corner [] square_track ∅
        = (Ok (np_array [desired_steering; target_velocity]), σ') /\
      (-0.9 <= desired_steering <= 0.9)%R) /\
  (exists (steering_velocity acceleration : R),
      lower_controller state_off_corner (np_array [0.5; 12]%R) [] ∅
        = (Ok (np_array [steering_velocity; acceleration]), ∅) /\
      (-0.4 <= steering_velocity <= 0.4)%R).
Proof.
  split.
  - apply (proj1 steering_commands_clamped state_off_corner [] square_track ∅).
    + simpl. lia.
    + discriminate.
  - apply (proj2 steering_commands_clamped
             state_off_corner (np_array [0.5; 12]%R) [] ∅).
    + simpl. lia.
    + reflexivity.
    + reflexivity.
Defined.

(** C9.  [lower_controller] raises [AssertionError] whenever the shape of
    [desired] is not [(2,)], leaving the session state alone; on a vehicle
    state and a [desired] array of shape [(2,)] it returns a
    [steering_velocity, acceleration] pair and cannot fail. *)
Theorem lower_controller_shape_contract :
  (forall (state : list R) (desired : ndarray) (parameters : list R)
          (σ : store),
      shape desired <> [2%nat] ->
      lower_controller state desired parameters σ
        = (Raise AssertionError, σ)) /\
  (forall (state : list R) (desired : ndarray) (parameters : list R)
          (σ : store),
      (4 <= length state)%nat -> wf_ndarray desired ->
      shape desired = [2%nat] ->
      exists (steering_velocity acceleration : R),
        lower_controller state desired parameters σ
          = (Ok (np_array [steering_velocity; acceleration]), σ)).
Proof.
  split.
  - apply lower_controller_shape_violation.
  - intros state desired parameters σ Hlen Hwf Hshape.
    destruct (lower_controller_run state desired parameters σ Hlen Hwf Hshape)
      as (r & a & Hrun & _).
    exists r, a. done.
Qed.

Lemma lower_controller_shape_contract_witness :
  lower_controller state_at_rest (np_array [0.5; 12; 3]%R) [] ∅
    = (Raise AssertionError, ∅) /\
  (exists (steering_velocity acceleration : R),
      lower_controller state_at_rest (np_array [0.5; 12]%R) [] ∅
        = (Ok (np_array [steering_velocity; acceleration]), ∅)).
Proof.
  split.
  - apply (proj1 lower_controller_shape_contract). discriminate.
  - apply (proj2 lower_controller_shape_contract).
    + simpl. lia.
    + reflexivity.
    + reflexivity.
Defined.

(** ** Frame properties of the session state *)

(** The outer layer either leaves the session dict alone (it raised before
    line 114) or has stored an int under ["last_idx"] and nothing else. *)
Lemma controller_locals_store
    (state parameters : list R) (racetrack : RaceTrack) (σ : store) :
  (controller_locals state parameters racetrack σ).2 = σ \/
  exists z : Z,
    (controller_locals state parameters racetrack σ).2
    = <["last_idx" := PyInt z]> σ.
Proof.
  unfold controller_locals, mbind, lift, dict_get, dict_set.
  destruct (py_index state 0); [| left; done].
  destruct (py_index state 1); [| left; done].
  destruct (py_index state 3); [| left; done].
  destruct (py_index state 4); [| left; done].
  destruct (find_closest_point_on_track _ _ _) as [r |]; [| left; done].
  right. exists r.1. destruct (controller_core _ _ _ _ _ _ _); done.
Qed.

Lemma controller_store
    (state parameters : list R) (racetrack : RaceTrack) (σ : store) :
  (controller state parameters racetrack σ).2
  = (controller_locals state parameters racetrack σ).2.
Proof.
  unfold controller, mbind, mret.
  destruct (controller_locals state parameters racetrack σ) as [[l | e] σ'];
    done.
Qed.

Lemma controller_frame
    (state parameters : list R) (racetrack : RaceTrack) (σ : store)
    (key : string) :
  key <> "last_idx" ->
  (controller state parameters racetrack σ).2 !! key = σ !! key.
Proof.
  intros Hkey. rewrite controller_store.
  destruct (controller_locals_store state parameters racetrack σ)
    as [-> | (z & ->)]; [done |].
  apply lookup_insert_ne. done.
Qed.

(** The hint read from the session dict does not reach the result. *)
Lemma controller_result_store_independent
    (state parameters : list R) (racetrack : RaceTrack) (σ1 σ2 : store) :
  (controller state parameters racetrack σ1).1
  = (controller state parameters racetrack σ2).1.
Proof.
  unfold controller, controller_locals, mbind, mret, lift, dict_get, dict_set.
  destruct (py_index state 0); [| done].
  destruct (py_index state 1); [| done].
  destruct (py_index state 3); [| done].
  destruct (py_index state 4); [| done].
  unfold find_closest_point_on_track.
  destruct (rbind _ _) as [r |]; [| done].
  destruct (controller_core _ _ _ _ _ _ _); done.
Qed.

Lemma tick_frame
    (update : list R -> ndarray -> list R)
    (parameters : list R) (racetrack : RaceTrack)
    (state : list R) (σ : store) (key : string) :
  key <> "last_idx" ->
  (tick update parameters racetrack state σ).2 !! key = σ !! key.
Proof.
  intros Hkey. unfold tick, mbind, mret.
  pose proof (controller_frame state parameters racetrack σ key Hkey) as Hc.
  destruct (controller state parameters racetrack σ) as [[desired | e] σ'];
    [| done].
  unfold lower_controller, lift.
  destruct (rbind _ _); done.
Qed.

Lemma run_ticks_frame
    (update : list R -> ndarray -> list R)
    (parameters : list R) (racetrack : RaceTrack)
    (n : nat) (state : list R) (σ : store) (key : string) :
  key <> "last_idx" ->
  (run_ticks update parameters racetrack n state σ).2 !! key = σ !! key.
Proof.
  intros Hkey. revert state σ.
  induction n as [| n IH]; intros state σ; [done |].
  cbn [run_ticks]. unfold mbind.
  pose proof (tick_frame update parameters racetrack state σ key Hkey) as Ht.
  destruct (tick update parameters racetrack state σ) as [[state' | e] σ'];
    [| done].
  rewrite IH. done.
Qed.

(** C10.  The outer layer changes no key of the session dict other than
    ["last_idx"]; the inner layer changes none; neither result depends on
    the session dict; and over any number of ticks, with any vehicle
    model, ["velocity_integral"] and ["velocity_prev_error"] (indeed every
    key other than ["last_idx"]) keep their values. *)
Theorem session_state_frame :
  (forall (state parameters : list R) (racetrack : RaceTrack) (σ : store)
          (key : string),
      key <> "last_idx" ->
      (controller state parameters racetrack σ).2 !! key = σ !! key) /\
  (forall (state : list R) (desired : ndarray) (parameters : list R)
          (σ : store),
      (lower_controller state desired parameters σ).2 = σ) /\
  (forall (state parameters : list R) (racetrack : RaceTrack)
          (σ1 σ2 : store),
      (controller state parameters racetrack σ1).1
      = (controller state parameters racetrack σ2).1) /\
  (forall (state : list R) (desired : ndarray) (parameters : list R)
          (σ1 σ2 : store),
      (lower_controller state desired parameters σ1).1
      = (lower_controller state desired parameters σ2).1) /\
  (forall (update : list R -> ndarray -> list R)
          (parameters : list R) (racetrack : RaceTrack)
          (n : nat) (state : list R) (σ : store) (key : string),
      key <> "last_idx" ->
      (run_ticks update parameters racetrack n state σ).2 !! key = σ !! key) /\
  (forall (update : list R -> ndarray -> list R)
          (parameters : list R) (racetrack : RaceTrack)
          (n : nat) (state : list R) (σ : store),
      (run_ticks update parameters racetrack n state σ).2 !! "velocity_integral"
        = σ !! "velocity_integral" /\
      (run_ticks update parameters racetrack n state σ).2 !! "velocity_prev_error"
        = σ !! "velocity_prev_error").
Proof.
  split; [apply controller_frame |].
  split; [done |].
  split; [apply controller_result_store_independent |].
  split; [done |].
  split; [apply run_ticks_frame |].
  intros update parameters racetrack n state σ.
  split; apply run_ticks_frame; discriminate.
Qed.

Lemma session_state_frame_witness :
  (controller state_at_rest [] one_point_track controller_state).2
    !! "velocity_integral"
  = controller_state !! "velocity_integral" /\
  (run_ticks (fun state _ => state) [] one_point_track 3
     state_at_rest controller_state).2 !! "velocity_prev_error"
  = controller_state !! "velocity_prev_error".
Proof.
  split.
  - apply (proj1 session_state_frame). discriminate.
  - apply (proj1 (proj2 (proj2 (proj2 (proj2 session_state_frame))))).
    discriminate.
Defined.

(** ** The speed planner in a tight corner *)

Lemma norm_lower_bound (v : point) (r : R) :
  (0 <= r)%R -> (r * r <= v.1 * v.1 + v.2 * v.2)%R -> (r <= norm v)%R.
Proof.
  intros Hr Hsq. unfold norm.
  rewrite <- (sqrt_square r) at 1 by done.
  apply sqrt_le_1_alt. done.
Qed.

Lemma square_track_closest :
  forall hint,
    find_closest_point_on_track (-1.5, 0)%R (centerline square_track) hint
    = Ok (0%Z, 1.5%R).
Proof.
  intros hint. unfold find_closest_point_on_track, square_track.
  cbn [centerline map argmin rbind].
  set (d0 := norm (psub (0, 0)%R (-1.5, 0)%R)).
  assert (Hd0 : d0 = 1.5%R) by (apply norm_eq; cbn; lra).
  assert (Hscan : argmin_scan
            [norm (psub (1, 0)%R (-1.5, 0)%R);
             norm (psub (1, 1)%R (-1.5, 0)%R);
             norm (psub (0, 1)%R (-1.5, 0)%R)] 1 0 d0 = 0%Z).
  { cbn [argmin_scan]. rewrite Hd0.
    rewrite !(proj2 (Rltb_false _ 1.5));
      [done | | |]; apply norm_lower_bound; cbn; lra. }
  rewrite Hscan.
  rewrite (py_index_lookup _ 0 d0) by done.
  cbn [rbind]. rewrite Hd0. done.
Qed.

Lemma square_track_length : track_length (centerline square_track) = 4%R.
Proof.
  unfold track_length, arc_length, segment_length, square_track.
  cbn [big_sum length centerline]. eval_track_at.
  rewrite !(norm_eq _ 1); cbn; lra.
Qed.

Lemma square_track_corner_curvature :
  calculate_curvature (centerline square_track) 0 default_window = Ok 2%R.
Proof.
  rewrite calculate_curvature_unfold
    by (try discriminate; unfold valid_index; simpl; lia).
  cbv zeta. unfold square_track, default_window. cbn [centerline].
  eval_track_at.
  assert (Hden : chord_denominator (0, 1)%R (0, 0)%R (1, 0)%R = 1%R).
  { unfold chord_denominator, pow15.
    rewrite !(norm_eq _ 1) by (cbn; lra).
    rewrite Rmult_1_l, sqrt_1. lra. }
  rewrite Hden. decide_reals. f_equal.
  unfold chord_curvature.
  fold (chord_denominator (0, 1)%R (0, 0)%R (1, 0)%R). rewrite Hden.
  unfold cross. cbn [psub fst snd].
  rewrite Rabs_pos_eq; lra.
Qed.

Lemma square_track_core :
  controller_core (-1.5) 0 0 0 (centerline square_track) 0 1.5
  = Ok (mk_locals 0 1.5 7.2 (0, 0)%R 0 0 2 10.2 10.2).
Proof.
  unfold controller_core.
  assert (Hla : lookahead_distance 0 1.5 = 7.2%R)
    by (unfold lookahead_distance; decide_reals; lra).
  rewrite Hla. unfold find_lookahead_point.
  rewrite lookahead_walk_overflow;
    [| discriminate | unfold valid_index; simpl; lia
     | rewrite square_track_length; lra ].
  cbn [rbind fst snd].
  assert (Htrack : track_at (centerline square_track) 0 = (0, 0)%R)
    by (unfold square_track; cbn [centerline]; eval_track_at; done).
  assert (Hidx : (0 mod Z.of_nat (length (centerline square_track)))%Z = 0%Z)
    by done.
  rewrite Htrack, Hidx.
  assert (Hsteer : pure_pursuit_steering (-1.5) 0 0 (0, 0)%R 1.5 = Ok 0%R).
  { unfold pure_pursuit_steering. cbn [fst snd].
    rewrite cos_0, sin_0.
    replace (sqrt _) with 1.5%R
      by (symmetry; rewrite <- (sqrt_square 1.5) by lra; f_equal; lra).
    decide_reals. rewrite checked_div_ok by lra. cbn [rbind].
    replace (_ / _)%R with 0%R by lra.
    rewrite atan_0. decide_reals. done. }
  rewrite Hsteer. cbn [rbind].
  rewrite square_track_corner_curvature. cbn [rbind].
  unfold curvature_speed, offtrack_speed, rate_limit. decide_reals.
  f_equal. f_equal; lra.
Qed.

Lemma square_track_locals :
  forall σ : store,
    controller_locals state_off_corner [] square_track σ
    = (Ok (mk_locals 0 1.5 7.2 (0, 0)%R 0 0 2 10.2 10.2),
       <["last_idx" := PyInt 0]> σ).
Proof.
  intros σ.
  unfold controller_locals, mbind, lift, dict_get, dict_set.
  unfold state_off_corner.
  rewrite (py_index_lookup _ 0 (-1.5)%R), (py_index_lookup _ 1 0%R),
    (py_index_lookup _ 3 0%R), (py_index_lookup _ 4 0%R) by done.
  rewrite square_track_closest. cbn [fst snd].
  rewrite square_track_core. done.
Qed.

Lemma tight_corner_planned_velocity (curvature cross_track_error : R) :
  (0.1 < curvature)%R ->
  curvature_speed curvature = 12%R /\
  ((cross_track_error <= 1 \/ 2 < cross_track_error)%R ->
   offtrack_speed (curvature_speed curvature) cross_track_error = 12%R) /\
  ((1 < cross_track_error <= 2)%R ->
   offtrack_speed (curvature_speed curvature) cross_track_error
   = (12 * 0.85)%R).
Proof.
  intros Hc.
  assert (Hspeed : curvature_speed curvature = 12%R).
  { unfold curvature_speed. rewrite (proj2 (Rgtb_true curvature 0.1)) by done.
    lra. }
  rewrite Hspeed. split; [done |]. unfold offtrack_speed. split.
  - intros [Hlow | Hhigh].
    + rewrite (proj2 (Rgtb_false cross_track_error 2.0)) by lra.
      rewrite (proj2 (Rgtb_false cross_track_error 1.0)) by lra. done.
    + rewrite (proj2 (Rgtb_true cross_track_error 2.0)) by lra.
      rewrite Rmin_left; lra.
  - intros Hmid.
    rewrite (proj2 (Rgtb_false cross_track_error 2.0)) by lra.
    rewrite (proj2 (Rgtb_true cross_track_error 1.0)) by lra. done.
Qed.

(** C5 (amended).  When the curvature evaluated at the lookahead index
    exceeds 0.1, the curvature tier selects 12.0 m/s whatever the current
    velocity, and the target velocity entering the rate limiter is
    12.0 m/s when the cross-track error is at most 1.0 or above 2.0, and
    12.0 * 0.85 = 10.2 m/s when it lies in (1.0, 2.0]. *)
Theorem controller_tight_corner_target
    (state parameters : list R) (racetrack : RaceTrack) (σ : store) :
  (5 <= length state)%nat -> centerline racetrack <> [] ->
  exists (l : locals) (velocity : R) (σ' : store),
    controller_locals state parameters racetrack σ = (Ok l, σ') /\
    state !! 3%nat = Some velocity /\
    (exists x y : R,
        state !! 0%nat = Some x /\ state !! 1%nat = Some y /\
        find_lookahead_point (x, y) (centerline racetrack) (l_closest_idx l)
            (lookahead_distance velocity (l_cross_track_error l))
          = Ok (l_lookahead_point l, l_lookahead_idx l)) /\
    calculate_curvature (centerline racetrack) (l_lookahead_idx l)
        default_window = Ok (l_curvature l) /\
    l_target_velocity l = rate_limit (l_planned_velocity l) velocity /\
    ((0.1 < l_curvature l)%R ->
     curvature_speed (l_curvature l) = 12%R /\
     ((l_cross_track_error l <= 1 \/ 2 < l_cross_track_error l)%R ->
      l_planned_velocity l = 12%R) /\
     ((1 < l_cross_track_error l <= 2)%R ->
      l_planned_velocity l = (12 * 0.85)%R)).
Proof.
  intros Hlen Hne.
  destruct (controller_run state parameters racetrack σ Hlen Hne)
    as (l & v & Hv & Hloc & _ & _ & _ & Hcurv & Hplan & Htarget
        & x & y & Hx & Hy & _ & Hla).
  exists l, v, (<["last_idx" := PyInt (l_closest_idx l)]> σ).
  split; [done |]. split; [done |].
  split; [exists x, y; done |].
  split; [done |]. split; [done |].
  intros Htight. rewrite Hplan.
  apply tight_corner_planned_velocity. done.
Qed.

Lemma controller_tight_corner_target_witness :
  exists (l : locals) (velocity : R) (σ' : store),
    controller_locals state_off_corner [] square_track ∅ = (Ok l, σ') /\
    state_off_corner !! 3%nat = Some velocity /\
    (exists x y : R,
        state_off_corner !! 0%nat = Some x /\
        state_off_corner !! 1%nat = Some y /\
        find_lookahead_point (x, y) (centerline square_track)
            (l_closest_idx l)
            (lookahead_distance velocity (l_cross_track_error l))
          = Ok (l_lookahead_point l, l_lookahead_idx l)) /\
    calculate_curvature (centerline square_track) (l_lookahead_idx l)
        default_window = Ok (l_curvature l) /\
    l_target_velocity l = rate_limit (l_planned_velocity l) velocity /\
    ((0.1 < l_curvature l)%R ->
     curvature_speed (l_curvature l) = 12%R /\
     ((l_cross_track_error l <= 1 \/ 2 < l_cross_track_error l)%R ->
      l_planned_velocity l = 12%R) /\
     ((1 < l_cross_track_error l <= 2)%R ->
      l_planned_velocity l = (12 * 0.85)%R)).
Proof.
  apply (controller_tight_corner_target state_off_corner [] square_track ∅).
  - simpl. lia.
  - discriminate.
Defined.

(** C5 as stated fails: for the vehicle 1.5 m off the corner of the unit
    square the curvature at the lookahead index is 2 (above 0.1), yet the
    target velocity entering the rate limiter is 10.2 m/s, not 12 m/s,
    because the cross-track error 1.5 m triggers the 0.85 derate. *)
Lemma controller_tight_corner_derated :
  exists (l : locals),
    controller_locals state_off_corner [] square_track ∅
      = (Ok l, <["last_idx" := PyInt 0]> ∅) /\
    calculate_curvature (centerline square_track) (l_lookahead_idx l)
        default_window = Ok (l_curvature l) /\
    (0.1 < l_curvature l)%R /\
    l_planned_velocity l = 10.2%R /\
    l_planned_velocity l <> 12%R.
Proof.
  exists (mk_locals 0 1.5 7.2 (0, 0)%R 0 0 2 10.2 10.2).
  split; [apply square_track_locals |].
  cbn [l_lookahead_idx l_curvature l_planned_velocity].
  split; [apply square_track_corner_curvature |].
  split; [lra |]. split; [done | lra].
Qed.

(** * Further properties of the track queries *)

Lemma norm_zero_iff (v : point) : norm v = 0%R <-> v = (0, 0)%R.
Proof.
  destruct v as [a b]. unfold norm. cbn [fst snd]. split.
  - intros Hs. apply sqrt_eq_0 in Hs; [| nra].
    assert (a = 0)%R by nra. assert (b = 0)%R by nra. subst. done.
  - intros [= -> ->]. apply sqrt_of_zero. lra.
Qed.

Lemma psub_zero_iff (p q : point) : psub p q = (0, 0)%R <-> p = q.
Proof.
  destruct p as [a b], q as [c d]. unfold psub. cbn [fst snd]. split.
  - intros [= H1 H2]. f_equal; lra.
  - intros [= -> ->]. f_equal; lra.
Qed.

Lemma closest_point_first_min
    (position : point) (track : track_t) (hint : pyval) :
  track <> [] ->
  exists (i : nat) (d : R),
    find_closest_point_on_track position track hint = Ok (Z.of_nat i, d) /\
    first_min (map (fun p => norm (psub p position)) track) i d.
Proof.
  intros Hne.
  destruct (argmin_first_min (map (fun p => norm (psub p position)) track))
    as (i & v & Harg & Hfm).
  { destruct track; done. }
  exists i, v. split; [| done].
  unfold find_closest_point_on_track. rewrite Harg. cbn [rbind].
  destruct Hfm as (Hi & _).
  rewrite (py_index_lookup _ i v) by done. done.
Qed.

(** The cross-track error is never negative, and it is zero exactly when
    the position is one of the track points; the index returned then
    holds that very point. *)
Theorem find_closest_point_zero_distance
    (position : point) (track : track_t) (hint : pyval) :
  track <> [] ->
  exists (i : nat) (d : R),
    find_closest_point_on_track position track hint = Ok (Z.of_nat i, d) /\
    (i < length track)%nat /\
    (0 <= d)%R /\
    (d = 0%R <-> position ∈ track) /\
    (d = 0%R -> track !! i = Some position).
Proof.
  intros Hne.
  destruct (closest_point_first_min position track hint Hne)
    as (i & d & Hfc & Hi & Hmin & _).
  rewrite list_lookup_fmap in Hi.
  destruct (track !! i) as [p |] eqn:Hp; [| discriminate].
  cbn in Hi. injection Hi as Hd.
  assert (Hzero : d = 0%R -> track !! i = Some position).
  { intros Hd0. rewrite Hd0 in Hd.
    apply (proj1 (norm_zero_iff _)) in Hd.
    apply (proj1 (psub_zero_iff _ _)) in Hd. congruence. }
  exists i, d. split; [done |].
  split; [apply lookup_lt_Some in Hp; done |].
  split; [rewrite <- Hd; apply norm_nonneg |].
  split; [| done]. split.
  - intros Hd0. apply list_elem_of_lookup. exists i. auto.
  - intros Hin. apply list_elem_of_lookup in Hin as (j & Hj).
    assert (Hle : (d <= 0)%R).
    { apply (Hmin j). rewrite list_lookup_fmap, Hj. cbn. f_equal.
      apply (proj2 (norm_zero_iff _)). apply (proj2 (psub_zero_iff _ _)).
      done. }
    pose proof (norm_nonneg (psub p position)). lra.
Qed.

Lemma find_closest_point_zero_distance_witness :
  exists (i : nat) (d : R),
    find_closest_point_on_track (1, 0)%R two_point_track (PyInt 0)
      = Ok (Z.of_nat i, d) /\
    (i < length two_point_track)%nat /\
    (0 <= d)%R /\
    (d = 0%R <-> (1, 0)%R ∈ two_point_track) /\
    (d = 0%R -> two_point_track !! i = Some (1, 0)%R).
Proof.
  apply (find_closest_point_zero_distance (1, 0)%R two_point_track (PyInt 0)).
  discriminate.
Defined.

Lemma py_index_invalid {A : Type} (l : list A) (i : Z) :
  ~ (- Z.of_nat (length l) <= i < Z.of_nat (length l))%Z ->
  py_index l i
  = Raise (if fits_c_long i then IndexError else OverflowError).
Proof.
  intros Hi. unfold py_index.
  destruct (Z.ltb_spec i 0).
  - destruct (Z.leb_spec 0 (Z.of_nat (length l) + i));
      [| destruct (fits_c_long i); done].
    destruct (Z.ltb_spec (Z.of_nat (length l) + i) (Z.of_nat (length l)));
      [lia | destruct (fits_c_long i); done].
  - destruct (Z.leb_spec 0 i); [| destruct (fits_c_long i); done].
    destruct (Z.ltb_spec i (Z.of_nat (length l)));
      [lia | destruct (fits_c_long i); done].
Qed.

Lemma fits_c_long_true (i : Z) :
  (-9223372036854775808 <= i < 9223372036854775808)%Z ->
  fits_c_long i = true.
Proof.
  intros Hi. unfold fits_c_long.
  destruct (Z.leb_spec (-9223372036854775808) i); [| lia].
  destruct (Z.ltb_spec i 9223372036854775808); [done | lia].
Qed.




(** The walk, with the point it returns: either it stops in the loop on
    the first count [k] whose arc length reaches the lookahead distance and
    interpolates on segment [k], or it runs out of iterations. *)
Lemma lookahead_walk_point (track : track_t) (d : R)
    (fuel : nat) (acc : R) (cur : Z) (steps : nat) :
  track <> [] -> valid_index track cur ->
  exists (p : point) (k : nat),
    lookahead_walk track d fuel acc cur steps
      = Ok (p, walk_index track cur k, (steps + k)%nat) /\
    (k <= fuel)%nat /\
    ((exists k', k = S k' /\
        (d <= acc + arc_length track cur k)%R /\
        (forall j, (0 < j < k)%nat -> (acc + arc_length track cur j < d)%R) /\
        p = interpolate (track_at track (cur + Z.of_nat k'))
              (track_at track (cur + Z.of_nat k)) d
              (acc + arc_length track cur k')) \/
     (k = fuel /\ p = track_at track (cur + Z.of_nat fuel) /\
      forall j, (0 < j <= fuel)%nat -> (acc + arc_length track cur j < d)%R)).
Proof.
  intros Hne. revert acc cur steps.
  induction fuel as [| fuel IH]; intros acc cur steps Hcur.
  - exists (track_at track cur), 0%nat.
    split; [| split; [lia |]].
    + cbn [lookahead_walk]. rewrite py_index_track_at by done.
      cbn. rewrite Nat.add_0_r. done.
    + right. split; [done |]. split; [f_equal; lia | intros j Hj; lia].
  - rewrite lookahead_walk_step by done.
    assert (Harc1 : arc_length track cur 1 = segment_length track cur).
    { rewrite arc_length_succ. unfold arc_length. simpl. lra. }
    assert (Hshift : forall j,
               (acc + arc_length track cur (S j)
                = acc + segment_length track cur
                  + arc_length track
                      ((cur + 1) mod Z.of_nat (length track)) j)%R).
    { intros j. rewrite arc_length_succ, arc_length_mod. lra. }
    assert (Hat : forall j : nat,
               track_at track
                 ((cur + 1) mod Z.of_nat (length track) + Z.of_nat j)
               = track_at track (cur + Z.of_nat (S j))).
    { intros j. unfold track_at. f_equal. f_equal.
      rewrite Zplus_mod_idemp_l. f_equal. lia. }
    destruct (Rgeb (acc + segment_length track cur) d) eqn:Hhit.
    + apply Rgeb_true in Hhit.
      eexists _, 1%nat. split; [| split; [lia |]].
      * cbn [walk_index]. rewrite Nat.add_1_r. done.
      * left. exists 0%nat. split; [done |].
        split; [rewrite Harc1; done |].
        split; [intros j Hj; lia |].
        unfold arc_length. cbn [big_sum]. rewrite Rplus_0_r.
        replace (cur + Z.of_nat 0)%Z with cur by lia. done.
    + apply Rgeb_false in Hhit.
      destruct (IH (acc + segment_length track cur)%R
                   ((cur + 1) mod Z.of_nat (length track))%Z (S steps))
        as (p & k & Hw & Hk & Hend).
      { apply valid_index_mod. done. }
      exists p, (S k). split; [| split; [lia |]].
      * rewrite Hw, Nat.add_succ_r. do 3 f_equal.
        unfold walk_index. destruct k as [| k'].
        -- f_equal; lia.
        -- rewrite Zplus_mod_idemp_l. f_equal; lia.
      * destruct Hend as [(k' & -> & Hreach & Hfirst & ->)
                         | (-> & -> & Hover)].
        -- left. exists (S k'). split; [done |].
           split; [rewrite Hshift; done |].
           split.
           ++ intros [| j] Hj; [lia |]. destruct j as [| j'].
              ** rewrite Harc1. done.
              ** rewrite Hshift. apply Hfirst. lia.
           ++ rewrite !Hat, <- Hshift. done.
        -- right. split; [done |]. split; [apply Hat |].
           intros [| j] Hj; [lia |]. destruct j as [| j'].
           ++ rewrite Harc1. done.
           ++ rewrite Hshift. apply Hover. lia.
Qed.

Lemma interpolate_convex (a b : point) (d acc : R) :
  exists r : R,
    (0 <= r <= 1)%R /\
    interpolate a b d acc = padd (pscale a (1 - r)) (pscale b r).
Proof.
  unfold interpolate. eexists. split; [apply clip_bounds; lra | done].
Qed.

Lemma walk_index_pred (track : track_t) (cur : Z) (k : nat) :
  track_at track (walk_index track cur (S k) - 1)
  = track_at track (cur + Z.of_nat k).
Proof.
  unfold walk_index, track_at. f_equal. f_equal.
  rewrite Zminus_mod_idemp_l. f_equal. lia.
Qed.

Lemma walk_index_at (track : track_t) (cur : Z) (k : nat) :
  track_at track (walk_index track cur (S k))
  = track_at track (cur + Z.of_nat (S k)).
Proof. unfold walk_index. apply track_at_mod. Qed.

(** The lookahead point always lies on the track segment that ends at
    the returned index: it is a convex combination of the point before
    the returned index (cyclically) and the point at it, and the returned
    index is a proper index of the track. *)
Theorem find_lookahead_point_on_segment
    (position : point) (track : track_t) (start_idx : Z) (lookahead_dist : R) :
  track <> [] -> valid_index track start_idx ->
  exists (p : point) (i : Z) (r : R),
    find_lookahead_point position track start_idx lookahead_dist = Ok (p, i) /\
    (0 <= i < Z.of_nat (length track))%Z /\
    (0 <= r <= 1)%R /\
    p = padd (pscale (track_at track (i - 1)) (1 - r))
             (pscale (track_at track i) r).
Proof.
  intros Hne Hstart.
  assert (Hlen : (0 < length track)%nat) by (destruct track; [done | simpl; lia]).
  destruct (lookahead_walk_point track lookahead_dist (length track) 0
              start_idx 0 Hne Hstart) as (p & k & Hw & Hk & Hend).
  unfold find_lookahead_point. rewrite Hw. cbn [rbind fst snd].
  destruct Hend as [(k' & -> & _ & _ & ->) | (Hkf & -> & _)].
  - destruct (interpolate_convex (track_at track (start_idx + Z.of_nat k'))
                (track_at track (start_idx + Z.of_nat (S k'))) lookahead_dist
                (0 + arc_length track start_idx k')) as (r & Hr & Hint).
    eexists _, _, r. split; [done |].
    split; [apply mod_valid_index; done |]. split; [done |].
    rewrite walk_index_pred, walk_index_at. done.
  - destruct k as [| m]; [lia |].
    eexists _, _, 1%R. split; [done |].
    split; [apply mod_valid_index; done |]. split; [lra |].
    rewrite walk_index_at, Hkf.
    unfold padd, pscale. cbn [fst snd].
    destruct (track_at track (start_idx + Z.of_nat (length track))) as [u v].
    cbn [fst snd]. f_equal; lra.
Qed.

Lemma find_lookahead_point_on_segment_witness :
  exists (p : point) (i : Z) (r : R),
    find_lookahead_point (0, 0)%R two_point_track 0 0.5 = Ok (p, i) /\
    (0 <= i < Z.of_nat (length two_point_track))%Z /\
    (0 <= r <= 1)%R /\
    p = padd (pscale (track_at two_point_track (i - 1)) (1 - r))
             (pscale (track_at two_point_track i) r).
Proof.
  apply (find_lookahead_point_on_segment (0, 0)%R two_point_track 0 0.5).
  - discriminate.
  - unfold valid_index. simpl. lia.
Defined.

Lemma norm_pscale (v : point) (r : R) :
  (0 <= r)%R -> norm (pscale v r) = (r * norm v)%R.
Proof.
  intros Hr. unfold norm, pscale. cbn [fst snd].
  replace (v.1 * r * (v.1 * r) + v.2 * r * (v.2 * r))%R
    with (r * r * (v.1 * v.1 + v.2 * v.2))%R by ring.
  rewrite sqrt_mult by nra. rewrite sqrt_square by done. done.
Qed.

Lemma interpolate_offset (a b : point) (r : R) :
  psub (padd (pscale a (1 - r)) (pscale b r)) a = pscale (psub b a) r.
Proof.
  destruct a as [a1 a2], b as [b1 b2].
  unfold psub, padd, pscale. cbn [fst snd]. f_equal; ring.
Qed.

(** Arc-length addressing.  On a track whose segments are all at least
    1 mm long, a lookahead distance between 0 and the track length is met
    exactly: the returned point lies on the segment that ends at the
    returned index, at the distance from that segment's first point that
    brings the accumulated arc length from the start to the lookahead
    distance. *)
Theorem find_lookahead_point_exact_arc_length
    (position : point) (track : track_t) (start_idx : Z) (lookahead_dist : R) :
  track <> [] -> valid_index track start_idx ->
  (forall j, 0.001 <= segment_length track j)%R ->
  (0 <= lookahead_dist <= track_length track)%R ->
  exists (p : point) (i : Z) (k : nat),
    find_lookahead_point position track start_idx lookahead_dist = Ok (p, i) /\
    forward_steps track start_idx i = S k /\
    (arc_length track start_idx k <= lookahead_dist
     <= arc_length track start_idx (S k))%R /\
    (arc_length track start_idx k + norm (psub p (track_at track (i - 1)))
     = lookahead_dist)%R.
Proof.
  intros Hne Hstart Hseg [Hd0 Hdlen].
  assert (Hlen : (0 < length track)%nat) by (destruct track; [done | simpl; lia]).
  destruct (lookahead_walk_point track lookahead_dist (length track) 0
              start_idx 0 Hne Hstart) as (p & k & Hw & Hk & Hend).
  unfold find_lookahead_point. rewrite Hw. cbn [rbind fst snd].
  destruct Hend as [(k' & -> & Hreach & Hfirst & ->) | (-> & _ & Hover)].
  - exists (interpolate (track_at track (start_idx + Z.of_nat k'))
              (track_at track (start_idx + Z.of_nat (S k'))) lookahead_dist
              (0 + arc_length track start_idx k')),
      (walk_index track start_idx (S k')), k'.
    split; [done |].
    split; [apply forward_steps_walk_index; [done | lia] |].
    assert (Hbelow : (arc_length track start_idx k' <= lookahead_dist)%R).
    { destruct k' as [| k'']; [unfold arc_length; simpl; lra |].
      specialize (Hfirst (S k'')). lapply Hfirst; [lra | lia]. }
    split; [lra |].
    rewrite walk_index_pred. unfold interpolate.
    set (a := track_at track (start_idx + Z.of_nat k')).
    set (b := track_at track (start_idx + Z.of_nat (S k'))).
    assert (Hab : norm (psub b a)
                  = segment_length track (start_idx + Z.of_nat k')).
    { unfold segment_length, a, b. do 3 f_equal. lia. }
    assert (Hstep : arc_length track start_idx (S k')
                    = (arc_length track start_idx k' + norm (psub b a))%R).
    { rewrite Hab. done. }
    pose proof (Hseg (start_idx + Z.of_nat k')%Z) as Hfloor.
    rewrite <- Hab in Hfloor.
    rewrite Rmax_left by lra.
    set (s := norm (psub b a)) in *.
    set (q := ((lookahead_dist - (0 + arc_length track start_idx k')) / s)%R).
    assert (Hq : (q * s = lookahead_dist - arc_length track start_idx k')%R).
    { unfold q. field. lra. }
    assert (Hq01 : (0 <= q <= 1)%R).
    { split.
      - unfold q. apply Rmult_le_pos; [lra |].
        apply Rlt_le, Rinv_0_lt_compat. lra.
      - apply (Rmult_le_reg_r s); [lra |]. rewrite Hq. lra. }
    unfold clip. rewrite (Rmax_left q 0) by lra. rewrite (Rmin_left q 1) by lra.
    rewrite interpolate_offset, norm_pscale by lra.
    fold s. lra.
  - exfalso. specialize (Hover (length track)).
    rewrite arc_length_full_turn in Hover. lapply Hover; [lra | lia].
Qed.

Lemma two_point_track_segments (j : Z) :
  segment_length two_point_track j = 1%R.
Proof.
  rewrite <- segment_length_mod.
  pose proof (mod_valid_index two_point_track j) as Hj.
  change (Z.of_nat (length two_point_track)) with 2%Z in *.
  assert (Hcases : (j mod 2 = 0 \/ j mod 2 = 1)%Z)
    by (specialize (Hj ltac:(discriminate)); lia).
  destruct Hcases as [-> | ->];
    unfold segment_length, two_point_track; eval_track_at;
    apply norm_eq; cbn; lra.
Qed.

Lemma find_lookahead_point_exact_arc_length_witness :
  exists (p : point) (i : Z) (k : nat),
    find_lookahead_point (0, 0)%R two_point_track 0 1.5 = Ok (p, i) /\
    forward_steps two_point_track 0 i = S k /\
    (arc_length two_point_track 0 k <= 1.5
     <= arc_length two_point_track 0 (S k))%R /\
    (arc_length two_point_track 0 k
     + norm (psub p (track_at two_point_track (i - 1)))
     = 1.5)%R.
Proof.
  apply (find_lookahead_point_exact_arc_length
           (0, 0)%R two_point_track 0 1.5).
  - discriminate.
  - unfold valid_index. simpl. lia.
  - intros j. rewrite two_point_track_segments. lra.
  - rewrite two_point_track_length. lra.
Defined.

(** * Further properties of the outer layer *)

Lemma py_index_past_end {A : Type} (l : list A) (i : nat) :
  (length l <= i)%nat -> (Z.of_nat i < 9223372036854775808)%Z ->
  py_index l (Z.of_nat i) = Raise IndexError.
Proof.
  intros Hi Hfit. rewrite py_index_invalid by lia.
  rewrite fits_c_long_true by lia. done.
Qed.

(** With fewer than five state components [controller] raises
    [IndexError] while unpacking the state, before it touches the session
    dict, whatever the track. *)
Theorem controller_short_state
    (state parameters : list R) (racetrack : RaceTrack) (σ : store) :
  (length state < 5)%nat ->
  controller state parameters racetrack σ = (Raise IndexError, σ).
Proof.
  intros Hlen.
  unfold controller, controller_locals, mbind, lift.
  destruct state as [| x [| y [| st [| v [| h rest]]]]]; simpl in Hlen; try lia.
  - rewrite (py_index_past_end _ 0) by (simpl; lia). done.
  - rewrite (py_index_lookup _ 0 x) by done.
    rewrite (py_index_past_end _ 1) by (simpl; lia). done.
  - rewrite (py_index_lookup _ 0 x), (py_index_lookup _ 1 y) by done.
    rewrite (py_index_past_end _ 3) by (simpl; lia). done.
  - rewrite (py_index_lookup _ 0 x), (py_index_lookup _ 1 y) by done.
    rewrite (py_index_past_end _ 3) by (simpl; lia). done.
  - rewrite (py_index_lookup _ 0 x), (py_index_lookup _ 1 y),
      (py_index_lookup _ 3 v) by done.
    rewrite (py_index_past_end _ 4) by (simpl; lia). done.
Qed.

Lemma controller_short_state_witness :
  controller [1; 2; 3; 4]%R [] square_track controller_state
  = (Raise IndexError, controller_state).
Proof.
  apply (controller_short_state [1; 2; 3; 4]%R [] square_track controller_state).
  simpl. lia.
Defined.

(** On an empty centerline [controller] raises [ValueError] (from
    [np.argmin]) and leaves the session dict as it was: ["last_idx"] is
    only written after the closest point has been found. *)
Theorem controller_empty_centerline
    (state parameters : list R) (racetrack : RaceTrack) (σ : store) :
  (5 <= length state)%nat -> centerline racetrack = [] ->
  controller state parameters racetrack σ = (Raise ValueError, σ).
Proof.
  intros Hlen Hempty.
  destruct (state_components state Hlen)
    as (x & y & st & v & h & H0 & H1 & _ & H3 & H4 & _).
  unfold controller, controller_locals, mbind, lift, dict_get.
  rewrite H0, H1, H3, H4, Hempty. done.
Qed.

Lemma controller_empty_centerline_witness :
  controller state_at_rest [] (mk_RaceTrack []) controller_state
  = (Raise ValueError, controller_state).
Proof.
  apply (controller_empty_centerline state_at_rest [] (mk_RaceTrack [])
           controller_state).
  - simpl. lia.
  - reflexivity.
Defined.

(** Split every float comparison, [min] and [max] of the goal into its
    two cases. *)
Ltac no_comparison t :=
  lazymatch t with
  | context [Rlt_dec _ _] => fail
  | context [Rle_dec _ _] => fail
  | _ => idtac
  end.

Ltac split_reals :=
  unfold clip, Rgtb, Rltb, Rgeb, Rmin, Rmax in *;
  repeat match goal with
    | |- context [Rlt_dec ?a ?b] =>
        no_comparison a; no_comparison b; destruct (Rlt_dec a b)
    | |- context [Rle_dec ?a ?b] =>
        no_comparison a; no_comparison b; destruct (Rle_dec a b)
    end.

(** The adaptive lookahead stays within [6, 15] m, never shrinks when the
    velocity grows, never grows when the cross-track error grows, and no
    longer depends on the velocity beyond 30 m/s. *)
Theorem lookahead_distance_shape :
  (forall velocity cross_track_error,
      (6 <= lookahead_distance velocity cross_track_error <= 15)%R) /\
  (forall v1 v2 cross_track_error,
      (v1 <= v2)%R ->
      (lookahead_distance v1 cross_track_error
       <= lookahead_distance v2 cross_track_error)%R) /\
  (forall velocity e1 e2,
      (e1 <= e2)%R ->
      (lookahead_distance velocity e2 <= lookahead_distance velocity e1)%R) /\
  (forall velocity cross_track_error,
      (30 <= velocity)%R ->
      lookahead_distance velocity cross_track_error
      = lookahead_distance 30 cross_track_error).
Proof.
  unfold lookahead_distance. repeat split; intros.
  - split_reals; lra.
  - split_reals; lra.
  - split_reals; lra.
  - split_reals; lra.
  - split_reals; lra.
Qed.

Lemma lookahead_distance_shape_witness :
  (lookahead_distance 10 0.5 <= lookahead_distance 20 0.5)%R /\
  (lookahead_distance 10 2.5 <= lookahead_distance 10 0.5)%R /\
  lookahead_distance 40 0 = lookahead_distance 30 0.
Proof.
  split; [| split].
  - apply (proj1 (proj2 lookahead_distance_shape)). lra.
  - apply (proj1 (proj2 (proj2 lookahead_distance_shape))). lra.
  - apply (proj2 (proj2 (proj2 lookahead_distance_shape))). lra.
Defined.

Lemma atan_pos (q : R) : (0 < q)%R -> (0 < atan q)%R.
Proof. intros Hq. rewrite <- atan_0. apply atan_increasing. done. Qed.

Lemma atan_neg (q : R) : (q < 0)%R -> (atan q < 0)%R.
Proof. intros Hq. rewrite <- atan_0. apply atan_increasing. done. Qed.

Lemma sign_pos (x : R) : (0 < x)%R -> sign x = 1%R.
Proof.
  intros Hx. unfold sign.
  rewrite (proj2 (Rltb_false x 0)), (proj2 (Rgtb_true x 0)) by lra. done.
Qed.

Lemma sign_neg (x : R) : (x < 0)%R -> sign x = (-1)%R.
Proof. intros Hx. unfold sign. rewrite (proj2 (Rltb_true x 0)) by lra. done. Qed.

(** Pure pursuit steers towards the lookahead point: the commanded angle
    has the sign of the lookahead point's lateral offset in the vehicle
    frame, is zero when the point is dead ahead (or within 0.1 m), and is
    strictly on that side once the point is more than 0.1 m away. *)
Theorem pure_pursuit_steering_sign
    (x y heading : R) (lookahead_point : point) (cross_track_error : R) :
  exists s : R,
    pure_pursuit_steering x y heading lookahead_point cross_track_error
      = Ok s /\
    ((0 < pursuit_lateral x y heading lookahead_point)%R -> (0 <= s)%R) /\
    ((pursuit_lateral x y heading lookahead_point < 0)%R -> (s <= 0)%R) /\
    (pursuit_lateral x y heading lookahead_point = 0%R -> s = 0%R) /\
    ((0.1 < pursuit_distance x y heading lookahead_point)%R ->
     ((0 < pursuit_lateral x y heading lookahead_point)%R -> (0 < s)%R) /\
     ((pursuit_lateral x y heading lookahead_point < 0)%R -> (s < 0)%R)).
Proof.
  unfold pure_pursuit_steering.
  fold (pursuit_distance x y heading lookahead_point).
  fold (pursuit_lateral x y heading lookahead_point).
  set (L := pursuit_distance x y heading lookahead_point).
  set (ty := pursuit_lateral x y heading lookahead_point).
  destruct (Rgtb L 0.1) eqn:HL.
  - apply Rgtb_true in HL.
    rewrite checked_div_ok by nra. cbn [rbind].
    set (q := (2.0 * 3.6 * ty / (L * L))%R).
    assert (HLL : (0 < / (L * L))%R) by (apply Rinv_0_lt_compat; nra).
    assert (Hqpos : (0 < ty)%R -> (0 < q)%R) by (intros; unfold q, Rdiv; nra).
    assert (Hqneg : (ty < 0)%R -> (q < 0)%R) by (intros; unfold q, Rdiv; nra).
    assert (Hqzero : ty = 0%R -> q = 0%R) by (intros ->; unfold q; lra).
    destruct (Rgtb cross_track_error 1.5) eqn:He; cbn [rbind].
    + apply Rgtb_true in He. eexists. split; [done |].
      assert (Hpos : (0 < ty)%R ->
                (0 < clip (atan q + clip (0.05 * (cross_track_error - 1.5)
                                           * sign ty) (-0.1) 0.1)
                       (-0.9) 0.9)%R).
      { intros Hty. pose proof (atan_pos q (Hqpos Hty)).
        rewrite sign_pos by done. split_reals; nra. }
      assert (Hneg : (ty < 0)%R ->
                (clip (atan q + clip (0.05 * (cross_track_error - 1.5)
                                       * sign ty) (-0.1) 0.1)
                      (-0.9) 0.9 < 0)%R).
      { intros Hty. pose proof (atan_neg q (Hqneg Hty)).
        rewrite sign_neg by done. split_reals; nra. }
      split; [intros Hty; apply Rlt_le, Hpos; done |].
      split; [intros Hty; apply Rlt_le, Hneg; done |].
      split; [| intros _; split; done].
      intros Hty. rewrite (Hqzero Hty), atan_0, Hty.
      unfold sign. split_reals; lra.
    + eexists. split; [done |].
      assert (Hpos : (0 < ty)%R -> (0 < clip (atan q) (-0.9) 0.9)%R).
      { intros Hty. pose proof (atan_pos q (Hqpos Hty)). split_reals; lra. }
      assert (Hneg : (ty < 0)%R -> (clip (atan q) (-0.9) 0.9 < 0)%R).
      { intros Hty. pose proof (atan_neg q (Hqneg Hty)). split_reals; lra. }
      split; [intros Hty; apply Rlt_le, Hpos; done |].
      split; [intros Hty; apply Rlt_le, Hneg; done |].
      split; [| intros _; split; done].
      intros Hty. rewrite (Hqzero Hty), atan_0. split_reals; lra.
  - apply Rgtb_false in HL. cbn [rbind].
    assert (Hz : clip 0 (-0.9) 0.9 = 0%R) by (split_reals; lra).
    rewrite Hz. exists 0%R. split; [done |].
    split; [lra |]. split; [lra |]. split; [done |]. lra.
Qed.

Lemma pure_pursuit_steering_sign_witness :
  exists s : R,
    pure_pursuit_steering 0 0 0 (1, 1)%R 0 = Ok s /\ (0 < s)%R.
Proof.
  destruct (pure_pursuit_steering_sign 0 0 0 (1, 1)%R 0)
    as (s & Hs & _ & _ & _ & Hfar).
  exists s. split; [done |].
  apply Hfar.
  - unfold pursuit_distance. cbn [fst snd]. rewrite cos_0, sin_0.
    apply Rlt_le_trans with (sqrt (1 * 1)).
    + rewrite sqrt_square; lra.
    + apply sqrt_le_1_alt. lra.
  - unfold pursuit_lateral. cbn [fst snd]. rewrite cos_0, sin_0. lra.
Defined.

(** The curvature estimate is never negative, and it vanishes whenever
    twice the window is a multiple of the number of track points, because
    the previous and the next sample are then the same point.  With the
    default window of 5 this makes the estimate identically zero on tracks
    of 1, 2, 5 or 10 points. *)
Theorem calculate_curvature_degenerate
    (track : track_t) (idx window : Z) :
  track <> [] -> valid_index track idx ->
  exists c : R,
    calculate_curvature track idx window = Ok c /\
    (0 <= c)%R /\
    (((2 * window) mod Z.of_nat (length track) = 0)%Z -> c = 0%R) /\
    ((10 mod Z.of_nat (length track) = 0)%Z ->
     calculate_curvature track idx default_window = Ok 0%R).
Proof.
  intros Hne Hidx.
  assert (Hn : (0 < Z.of_nat (length track))%Z)
    by (destruct track; [done | simpl; lia]).
  assert (Hsame : forall w,
             ((2 * w) mod Z.of_nat (length track) = 0)%Z ->
             calculate_curvature track idx w = Ok 0%R).
  { intros w Hw.
    rewrite calculate_curvature_unfold by done. cbv zeta.
    assert (Hp : track_at track (idx + w) = track_at track (idx - w)).
    { unfold track_at. f_equal. f_equal.
      replace (idx + w)%Z with (idx - w + 2 * w)%Z by lia.
      rewrite <- Zplus_mod_idemp_r, Hw, Z.add_0_r. done. }
    rewrite Hp. destruct (Rgtb _ _); [| done]. f_equal.
    unfold chord_curvature, cross, psub. cbn [fst snd].
    replace (2 * _)%R with 0%R by ring.
    rewrite Rabs_R0. unfold Rdiv. apply Rmult_0_l. }
  destruct (calculate_curvature_ok track idx window Hne Hidx) as (c & Hc).
  exists c. split; [done |]. split; [| split].
  - rewrite calculate_curvature_unfold in Hc by done. cbv zeta in Hc.
    destruct (Rgtb _ _) eqn:Hd in Hc; injection Hc as <-; [| lra].
    apply Rgtb_true in Hd. unfold chord_curvature.
    fold (chord_denominator (track_at track (idx - window))
            (track_at track idx) (track_at track (idx + window))).
    apply Rmult_le_pos; [apply Rabs_pos |].
    apply Rlt_le, Rinv_0_lt_compat. lra.
  - intros Hw. rewrite (Hsame window Hw) in Hc. congruence.
  - intros H10. apply Hsame. done.
Qed.

Lemma calculate_curvature_degenerate_witness :
  exists c : R,
    calculate_curvature two_point_track 1 3 = Ok c /\
    (0 <= c)%R /\
    (((2 * 3) mod Z.of_nat (length two_point_track) = 0)%Z -> c = 0%R) /\
    ((10 mod Z.of_nat (length two_point_track) = 0)%Z ->
     calculate_curvature two_point_track 1 default_window = Ok 0%R).
Proof.
  apply (calculate_curvature_degenerate two_point_track 1 3).
  - discriminate.
  - unfold valid_index. simpl. lia.
Defined.

Lemma planned_speed_range (curvature cross_track_error : R) :
  (10.2 <= offtrack_speed (curvature_speed curvature) cross_track_error
   <= 35)%R.
Proof. unfold offtrack_speed, curvature_speed. split; split_reals; lra. Qed.

(** The speed planner: the planned speed (curvature tier, then off-track
    reduction) always lies in [10.2, 35] m/s, is capped at 15 m/s when
    the cross-track error exceeds 2 m, and never increases when the
    curvature increases. *)
Theorem planned_speed_shape :
  (forall curvature cross_track_error,
      (10.2 <= offtrack_speed (curvature_speed curvature) cross_track_error
       <= 35)%R) /\
  (forall curvature cross_track_error,
      (2 < cross_track_error)%R ->
      (offtrack_speed (curvature_speed curvature) cross_track_error
       <= 15)%R) /\
  (forall c1 c2 cross_track_error,
      (c1 <= c2)%R ->
      (offtrack_speed (curvature_speed c2) cross_track_error
       <= offtrack_speed (curvature_speed c1) cross_track_error)%R).
Proof.
  unfold offtrack_speed, curvature_speed. repeat split; intros.
  - split_reals; lra.
  - split_reals; lra.
  - split_reals; lra.
  - split_reals; lra.
Qed.

Lemma planned_speed_shape_witness :
  (offtrack_speed (curvature_speed 0.03) 2.5 <= 15)%R /\
  (offtrack_speed (curvature_speed 0.2) 0
   <= offtrack_speed (curvature_speed 0.03) 0)%R.
Proof.
  split.
  - apply (proj1 (proj2 planned_speed_shape)). lra.
  - apply (proj2 (proj2 planned_speed_shape)). lra.
Defined.

Lemma rate_limit_floor (planned velocity : R) :
  (10.2 <= planned <= 35)%R ->
  (10 < rate_limit planned velocity)%R /\
  ((velocity <= 45)%R -> (rate_limit planned velocity <= 35)%R) /\
  ((45 <= velocity)%R -> rate_limit planned velocity = (velocity - 10)%R).
Proof.
  intros Hp. unfold rate_limit. repeat split; intros; split_reals; lra.
Qed.

(** The outer layer never commands a stop: the velocity it returns is
    always above 10 m/s; it is at most 35 m/s as long as the vehicle is
    not faster than 45 m/s, and exactly 10 m/s below the current velocity
    beyond that. *)
Theorem controller_velocity_command_range
    (state parameters : list R) (racetrack : RaceTrack) (σ : store) :
  (5 <= length state)%nat -> centerline racetrack <> [] ->
  exists (desired_steering target_velocity velocity : R) (σ' : store),
    state !! 3%nat = Some velocity /\
    controller state parameters racetrack σ
      = (Ok (np_array [desired_steering; target_velocity]), σ') /\
    (10 < target_velocity)%R /\
    ((velocity <= 45)%R -> (target_velocity <= 35)%R) /\
    ((45 <= velocity)%R -> target_velocity = (velocity - 10)%R).
Proof.
  intros Hlen Hne.
  destruct (controller_run state parameters racetrack σ Hlen Hne)
    as (l & v & Hv & _ & Hc & _ & _ & _ & Hplan & Htarget & _).
  exists (l_desired_steering l), (l_target_velocity l), v,
    (<["last_idx" := PyInt (l_closest_idx l)]> σ).
  split; [done |]. split; [done |].
  rewrite Htarget. apply rate_limit_floor.
  rewrite Hplan. apply planned_speed_range.
Qed.

Lemma controller_velocity_command_range_witness :
  exists (desired_steering target_velocity velocity : R) (σ' : store),
    state_off_corner !! 3%nat = Some velocity /\
    controller state_off_corner [] square_track ∅
      = (Ok (np_array [desired_steering; target_velocity]), σ') /\
    (10 < target_velocity)%R /\
    ((velocity <= 45)%R -> (target_velocity <= 35)%R) /\
    ((45 <= velocity)%R -> target_velocity = (velocity - 10)%R).
Proof.
  apply (controller_velocity_command_range state_off_corner [] square_track ∅).
  - simpl. lia.
  - discriminate.
Defined.

(** * Further properties of the inner layer and of the tick *)

Lemma Rabs_le_bounds (a b : R) : (Rabs a <= b)%R -> (- b <= a <= b)%R.
Proof.
  intros Hab. pose proof (Rle_abs a). pose proof (Rle_abs (- a)) as Hneg.
  rewrite Rabs_Ropp in Hneg. lra.
Qed.

(** The regulation law, spelled out: on a state with components
    [steering] and [velocity] and a desired pair [ds; dv], both commands
    have the sign of their error, vanish with it, the acceleration stays
    within [-15, 15] and is exactly [1.5 * (dv - velocity)] while the
    velocity error is within 10 m/s. *)
Theorem lower_controller_follows_error
    (state : list R) (ds dv steering velocity : R)
    (parameters : list R) (σ : store) :
  state !! 2%nat = Some steering -> state !! 3%nat = Some velocity ->
  exists (steering_velocity acceleration : R),
    lower_controller state (np_array [ds; dv]) parameters σ
      = (Ok (np_array [steering_velocity; acceleration]), σ) /\
    (-15 <= acceleration <= 15)%R /\
    ((velocity < dv)%R -> (0 < acceleration)%R) /\
    ((dv < velocity)%R -> (acceleration < 0)%R) /\
    (dv = velocity -> acceleration = 0%R) /\
    ((Rabs (dv - velocity) <= 10)%R ->
     acceleration = (1.5 * (dv - velocity))%R) /\
    ((steering < ds)%R -> (0 < steering_velocity)%R) /\
    ((ds < steering)%R -> (steering_velocity < 0)%R) /\
    (ds = steering -> steering_velocity = 0%R).
Proof.
  intros Hst Hv.
  unfold lower_controller, lift. cbn [shape data np_array length].
  rewrite bool_decide_eq_true_2 by done. cbn [py_assert rbind].
  rewrite (py_index_lookup _ 2 steering), (py_index_lookup _ 3 velocity)
    by done.
  cbn [rbind].
  rewrite (py_index_lookup _ 0 ds), (py_index_lookup _ 1 dv) by done.
  cbn [rbind].
  eexists _, _. split; [done |].
  split; [split; split_reals; lra |].
  split; [intros; split_reals; lra |].
  split; [intros; split_reals; lra |].
  split; [intros; split_reals; lra |].
  split.
  { intros Habs. apply Rabs_le_bounds in Habs. split_reals; lra. }
  split; [intros; split_reals; nra |].
  split; [intros; split_reals; nra |].
  intros ->. split_reals; lra.
Qed.

Lemma lower_controller_follows_error_witness :
  exists (steering_velocity acceleration : R),
    lower_controller [0; 0; 0.1; 20; 0]%R (np_array [0.3; 25]%R) [] ∅
      = (Ok (np_array [steering_velocity; acceleration]), ∅) /\
    (-15 <= acceleration <= 15)%R /\
    ((20 < 25)%R -> (0 < acceleration)%R) /\
    ((25 < 20)%R -> (acceleration < 0)%R) /\
    (25%R = 20%R -> acceleration = 0%R) /\
    ((Rabs (25 - 20) <= 10)%R -> acceleration = (1.5 * (25 - 20))%R) /\
    ((0.1 < 0.3)%R -> (0 < steering_velocity)%R) /\
    ((0.3 < 0.1)%R -> (steering_velocity < 0)%R) /\
    (0.3%R = 0.1%R -> steering_velocity = 0%R).
Proof.
  apply (lower_controller_follows_error [0; 0; 0.1; 20; 0]%R 0.3 25 0.1 20 [] ∅);
    reflexivity.
Defined.

(** One tick composes: on a state of at least five components and a
    non-empty centerline the pair produced by the outer layer always
    passes the inner layer's shape assertion, the tick returns the vehicle
    model's next state for a command within the actuator clamps, and the
    session dict holds a proper track index under ["last_idx"]. *)
Theorem tick_returns
    (update : list R -> ndarray -> list R)
    (parameters : list R) (racetrack : RaceTrack)
    (state : list R) (σ : store) :
  (5 <= length state)%nat -> centerline racetrack <> [] ->
  exists (steering_velocity acceleration : R) (i : Z),
    tick update parameters racetrack state σ
      = (Ok (update state (np_array [steering_velocity; acceleration])),
         <["last_idx" := PyInt i]> σ) /\
    (-0.4 <= steering_velocity <= 0.4)%R /\
    (-15 <= acceleration <= 15)%R /\
    (0 <= i < Z.of_nat (length (centerline racetrack)))%Z.
Proof.
  intros Hlen Hne.
  destruct (controller_run state parameters racetrack σ Hlen Hne)
    as (l & v & _ & _ & Hc & _ & _ & _ & _ & _ & x & y & _ & _ & Hfc & _).
  destruct (closest_point_lookup (x, y) (centerline racetrack)
              (default (PyInt 0) (σ !! "last_idx")) Hne)
    as (i & p & Hfc' & Hp).
  rewrite Hfc in Hfc'. injection Hfc' as Hi _.
  destruct (lower_controller_run state
              (np_array [l_desired_steering l; l_target_velocity l])
              parameters (<["last_idx" := PyInt (l_closest_idx l)]> σ))
    as (r & a & Hlow & Hr & Ha); [lia | reflexivity | reflexivity |].
  exists r, a, (l_closest_idx l). split.
  - unfold tick, mbind, mret. rewrite Hc, Hlow. done.
  - split; [done |]. split; [done |].
    rewrite Hi. apply lookup_lt_Some in Hp. lia.
Qed.

Lemma tick_returns_witness :
  exists (steering_velocity acceleration : R) (i : Z),
    tick (fun state _ => state) [] square_track state_off_corner ∅
      = (Ok ((fun state _ => state) state_off_corner
               (np_array [steering_velocity; acceleration])),
         <["last_idx" := PyInt i]> ∅) /\
    (-0.4 <= steering_velocity <= 0.4)%R /\
    (-15 <= acceleration <= 15)%R /\
    (0 <= i < Z.of_nat (length (centerline square_track)))%Z.
Proof.
  apply (tick_returns (fun state _ => state) [] square_track
           state_off_corner ∅).
  - simpl. lia.
  - discriminate.
Defined.

Lemma tick_step
    (update : list R -> ndarray -> list R)
    (parameters : list R) (racetrack : RaceTrack)
    (state : list R) (σ : store) :
  (5 <= length state)%nat -> centerline racetrack <> [] ->
  exists (control : ndarray) (i : Z),
    tick update parameters racetrack state σ
      = (Ok (update state control), <["last_idx" := PyInt i]> σ) /\
    (0 <= i < Z.of_nat (length (centerline racetrack)))%Z.
Proof.
  intros Hlen Hne.
  destruct (controller_run state parameters racetrack σ Hlen Hne)
    as (l & v & _ & _ & Hc & _ & _ & _ & _ & _ & x & y & _ & _ & Hfc & _).
  destruct (closest_point_lookup (x, y) (centerline racetrack)
              (default (PyInt 0) (σ !! "last_idx")) Hne)
    as (i & p & Hfc' & Hp).
  rewrite Hfc in Hfc'. injection Hfc' as Hi _.
  destruct (lower_controller_run state
              (np_array [l_desired_steering l; l_target_velocity l])
              parameters (<["last_idx" := PyInt (l_closest_idx l)]> σ))
    as (r & a & Hlow & _); [lia | reflexivity | reflexivity |].
  exists (np_array [r; a]), (l_closest_idx l). split.
  - unfold tick, mbind, mret. rewrite Hc, Hlow. done.
  - rewrite Hi. apply lookup_lt_Some in Hp. lia.
Qed.

(** Any number of ticks runs to completion when the vehicle model keeps
    the state at five components or more: no tick raises, the final state
    again has at least five components, and after at least one tick the
    session dict holds a proper track index under ["last_idx"]. *)
Theorem run_ticks_returns
    (update : list R -> ndarray -> list R)
    (parameters : list R) (racetrack : RaceTrack)
    (n : nat) (state : list R) (σ : store) :
  (forall s c, (5 <= length s)%nat -> (5 <= length (update s c))%nat) ->
  (5 <= length state)%nat -> centerline racetrack <> [] ->
  exists (state' : list R) (σ' : store),
    run_ticks update parameters racetrack n state σ = (Ok state', σ') /\
    (5 <= length state')%nat /\
    ((0 < n)%nat ->
     exists i : Z,
       σ' !! "last_idx" = Some (PyInt i) /\
       (0 <= i < Z.of_nat (length (centerline racetrack)))%Z).
Proof.
  intros Hupd Hlen Hne. revert state σ Hlen.
  induction n as [| n IH]; intros state σ Hlen.
  - exists state, σ. split; [done |]. split; [done | lia].
  - destruct (tick_step update parameters racetrack state σ Hlen Hne)
      as (c & i & Htick & Hi).
    destruct (IH (update state c) (<["last_idx" := PyInt i]> σ))
      as (state' & σ' & Hrun & Hlen' & Hidx); [apply Hupd; done |].
    exists state', σ'. split.
    + cbn [run_ticks]. unfold mbind. rewrite Htick. done.
    + split; [done |]. intros _.
      destruct n as [| n'].
      * cbn in Hrun. injection Hrun as <- <-.
        exists i. split; [apply lookup_insert_eq | done].
      * apply Hidx. lia.
Qed.

Lemma run_ticks_returns_witness :
  exists (state' : list R) (σ' : store),
    run_ticks (fun state _ => state) [] square_track 3 state_off_corner ∅
      = (Ok state', σ') /\
    (5 <= length state')%nat /\
    ((0 < 3)%nat ->
     exists i : Z,
       σ' !! "last_idx" = Some (PyInt i) /\
       (0 <= i < Z.of_nat (length (centerline square_track)))%Z).
Proof.
  apply (run_ticks_returns (fun state _ => state) [] square_track 3
           state_off_corner ∅).
  - intros s c Hs. done.
  - simpl. lia.
  - discriminate.
Defined.

(** Evaluating the outer layer again on the same state changes nothing:
    the second call returns what the first returned (value or exception)
    and leaves the session dict as the first call left it. *)
Theorem controller_idempotent
    (state parameters : list R) (racetrack : RaceTrack) (σ : store) :
  controller state parameters racetrack
    (controller state parameters racetrack σ).2
  = controller state parameters racetrack σ.
Proof.
  unfold controller, controller_locals, mbind, mret, lift, dict_get, dict_set.
  destruct (py_index state 0); [| done].
  destruct (py_index state 1); [| done].
  destruct (py_index state 3); [| done].
  destruct (py_index state 4); [| done].
  unfold find_closest_point_on_track.
  destruct (rbind _ _) as [r |]; [| done].
  destruct (controller_core _ _ _ _ _ _ _); cbn [snd];
    rewrite insert_insert_eq; done.
Qed.

(** * Properties of the driver scripts *)

(** The reset of [analyze_oscillation.py] restores the module-level
    initial session dict from any earlier contents, so resetting twice is
    the same as resetting once. *)
Theorem reset_for_analysis_restores_initial (σ : store) :
  (reset_for_analysis σ).2 = controller_state /\
  (reset_for_analysis (reset_for_analysis σ).2).2 = (reset_for_analysis σ).2.
Proof.
  assert (Hreset : forall σ0 : store, (reset_for_analysis σ0).2 = controller_state).
  { intros σ0. unfold reset_for_analysis, mbind, dict_clear, dict_set,
      controller_state. cbn [snd].
    apply map_eq. intros key.
    destruct (decide (key = "last_idx")) as [-> | H1];
      [rewrite !lookup_insert; repeat case_decide; done |].
    destruct (decide (key = "velocity_integral")) as [-> | H2];
      [rewrite !lookup_insert; repeat case_decide; done |].
    destruct (decide (key = "velocity_prev_error")) as [-> | H3];
      [rewrite !lookup_insert; repeat case_decide; done |].
    rewrite !lookup_insert_ne by done. done. }
  split; [apply Hreset |]. rewrite !Hreset. done.
Qed.

(** The value stored under ["last_idx"] does not depend on the session
    dict the call started from. *)
Lemma controller_closest_store_independent
    (state parameters : list R) (racetrack : RaceTrack) (σ1 σ2 : store) :
  (controller state parameters racetrack σ1).2 !! "last_idx" = σ1 !! "last_idx"
  /\ (controller state parameters racetrack σ2).2 !! "last_idx"
     = σ2 !! "last_idx"
  \/ (controller state parameters racetrack σ1).2 !! "last_idx"
     = (controller state parameters racetrack σ2).2 !! "last_idx".
Proof.
  unfold controller, controller_locals, mbind, mret, lift, dict_get, dict_set.
  destruct (py_index state 0); [| left; done].
  destruct (py_index state 1); [| left; done].
  destruct (py_index state 3); [| left; done].
  destruct (py_index state 4); [| left; done].
  unfold find_closest_point_on_track.
  destruct (rbind _ _) as [r |]; [| left; done].
  right. destruct (controller_core _ _ _ _ _ _ _); cbn [snd];
    rewrite !lookup_insert_eq; done.
Qed.

(** The reset of [test_tracking.py] installs six keys, none of which is
    ["last_idx"]; the outer layer copes with the missing key through its
    default, returns what it returns from the initial session dict, and
    creates ["last_idx"] on its first call. *)
Theorem reset_for_tracking_omits_last_idx
    (state parameters : list R) (racetrack : RaceTrack) (σ : store) :
  (5 <= length state)%nat -> centerline racetrack <> [] ->
  let σ0 := (reset_for_tracking σ).2 in
  σ0 !! "last_idx" = None /\
  σ0 !! "closest_point_idx" = Some (PyInt 0) /\
  size σ0 = 6%nat /\
  exists (out : ndarray) (i : Z),
    controller state parameters racetrack σ0
      = (Ok out, <["last_idx" := PyInt i]> σ0) /\
    controller state parameters racetrack controller_state
      = (Ok out, <["last_idx" := PyInt i]> controller_state).
Proof.
  intros Hlen Hne σ0.
  split; [done |]. split; [done |]. split; [done |].
  destruct (controller_run state parameters racetrack σ0 Hlen Hne)
    as (l & v & _ & _ & Hc & _).
  destruct (controller_run state parameters racetrack controller_state Hlen Hne)
    as (l' & v' & _ & _ & Hc' & _).
  pose proof (controller_result_store_independent state parameters racetrack
                σ0 controller_state) as Hind.
  rewrite Hc, Hc' in Hind. cbn [fst] in Hind.
  injection Hind as Hs Ht.
  assert (Hidx : l_closest_idx l = l_closest_idx l').
  { destruct (controller_closest_store_independent state parameters
                racetrack σ0 controller_state) as [[Hcl _] | Hcl];
      rewrite ?Hc, ?Hc' in Hcl; cbn [snd] in Hcl;
      rewrite ?lookup_insert_eq in Hcl; [done | congruence]. }
  eexists _, (l_closest_idx l). split; [exact Hc |].
  rewrite Hc', Hs, Ht, Hidx. done.
Qed.

Lemma reset_for_tracking_omits_last_idx_witness :
  let σ0 := (reset_for_tracking controller_state).2 in
  σ0 !! "last_idx" = None /\
  σ0 !! "closest_point_idx" = Some (PyInt 0) /\
  size σ0 = 6%nat /\
  exists (out : ndarray) (i : Z),
    controller state_off_corner [] square_track σ0
      = (Ok out, <["last_idx" := PyInt i]> σ0) /\
    controller state_off_corner [] square_track controller_state
      = (Ok out, <["last_idx" := PyInt i]> controller_state).
Proof.
  apply (reset_for_tracking_omits_last_idx state_off_corner [] square_track
           controller_state).
  - simpl. lia.
  - discriminate.
Defined.

(** The track direction used by [analyze_oscillation.py] at a proper
    index is the chord to the cyclic successor, the same segment the
    lookahead walk measures from that index; past the last index the
    script's explicit wrap-around and the walk's modulo agree. *)
Theorem track_direction_is_cyclic_chord (centerline : track_t) (closest_idx : Z) :
  (0 <= closest_idx < Z.of_nat (length centerline))%Z ->
  track_direction centerline closest_idx
    = Ok (psub (track_at centerline (closest_idx + 1))
               (track_at centerline closest_idx)) /\
  (forall d : point,
      track_direction centerline closest_idx = Ok d ->
      norm d = segment_length centerline closest_idx).
Proof.
  intros Hidx.
  assert (Hne : centerline <> []) by (destruct centerline; [simpl in Hidx; lia | done]).
  assert (Hdir : track_direction centerline closest_idx
                 = Ok (psub (track_at centerline (closest_idx + 1))
                            (track_at centerline closest_idx))).
  { unfold track_direction.
    destruct (Z.ltb_spec closest_idx (Z.of_nat (length centerline) - 1)).
    - rewrite !py_index_track_at by (unfold valid_index; lia). done.
    - rewrite !py_index_track_at by (unfold valid_index; lia). cbn [rbind].
      do 2 f_equal. unfold track_at. f_equal. f_equal.
      replace (closest_idx + 1)%Z with (Z.of_nat (length centerline)) by lia.
      rewrite Z.mod_same by lia. rewrite Z.mod_0_l by lia. done. }
  split; [done |].
  intros d Hd. rewrite Hdir in Hd. injection Hd as <-. done.
Qed.

Lemma track_direction_is_cyclic_chord_witness :
  track_direction two_point_track 1
    = Ok (psub (track_at two_point_track (1 + 1))
               (track_at two_point_track 1)) /\
  (forall d : point,
      track_direction two_point_track 1 = Ok d ->
      norm d = segment_length two_point_track 1).
Proof.
  apply (track_direction_is_cyclic_chord two_point_track 1).
  simpl. lia.
Defined.

(** The two scripts disagree on what a violation is: [test_tracking.py]
    counts a step only when the cross-track error exceeds the wider of
    the two track widths, [analyze_oscillation.py] reports one as soon as
    it exceeds either.  Every step counted by the former is reported
    ["VIOL-R"] by the latter, and the status is ["OK"] exactly when the
    error is within both widths and within 1.5 m. *)
Theorem track_status_covers_violations (cte track_width_r track_width_l : R) :
  (is_violating cte track_width_r track_width_l = true ->
   track_status cte track_width_r track_width_l = "VIOL-R") /\
  (track_status cte track_width_r track_width_l = "OK" <->
   (cte <= track_width_r /\ cte <= track_width_l /\ cte <= 1.5)%R) /\
  ((track_status cte track_width_r track_width_l = "VIOL-R" \/
    track_status cte track_width_r track_width_l = "VIOL-L") <->
   (Rmin track_width_r track_width_l < cte)%R).
Proof.
  unfold is_violating, track_status.
  split; [| split].
  - intros Hv. apply Rgtb_true in Hv.
    pose proof (Rmax_l track_width_r track_width_l).
    rewrite (proj2 (Rgtb_true cte track_width_r)) by lra. done.
  - destruct (Rgtb cte track_width_r) eqn:H1;
      [apply Rgtb_true in H1 | apply Rgtb_false in H1];
      [split; [discriminate | lra] |].
    destruct (Rgtb cte track_width_l) eqn:H2;
      [apply Rgtb_true in H2 | apply Rgtb_false in H2];
      [split; [discriminate | lra] |].
    destruct (Rgtb cte 3.0) eqn:H3;
      [apply Rgtb_true in H3 | apply Rgtb_false in H3];
      [split; [discriminate | lra] |].
    destruct (Rgtb cte 1.5) eqn:H4;
      [apply Rgtb_true in H4 | apply Rgtb_false in H4];
      [split; [discriminate | lra] |].
    split; [intros _; lra | done].
  - destruct (Rgtb cte track_width_r) eqn:H1;
      [apply Rgtb_true in H1 | apply Rgtb_false in H1].
    { split; [intros _ | auto].
      pose proof (Rmin_l track_width_r track_width_l). lra. }
    destruct (Rgtb cte track_width_l) eqn:H2;
      [apply Rgtb_true in H2 | apply Rgtb_false in H2].
    { split; [intros _ | auto].
      pose proof (Rmin_r track_width_r track_width_l). lra. }
    split.
    + intros [Hs | Hs]; destruct (Rgtb cte 3.0), (Rgtb cte 1.5); discriminate.
    + intros Hmin. exfalso. revert Hmin. unfold Rmin.
      destruct (Rle_dec _ _); lra.
Qed.

Lemma track_status_covers_violations_witness :
  track_status 4 3 2 = "VIOL-R" /\ track_status 2.5 3 2 = "VIOL-L".
Proof.
  split.
  - apply (proj1 (track_status_covers_violations 4 3 2)).
    unfold is_violating. apply Rgtb_true.
    rewrite Rmax_left; lra.
  - destruct (proj2 (proj2 (proj2 (track_status_covers_violations 2.5 3 2))))
      as [Hr | Hl].
    + rewrite Rmin_right; lra.
    + exfalso. revert Hr. unfold track_status.
      rewrite (proj2 (Rgtb_false 2.5 3)) by lra.
      rewrite (proj2 (Rgtb_true 2.5 2)) by lra. discriminate.
    + done.
Defined.

Lemma tracking_fold (obs : list observation) (t0 : tracking_totals) :
  let t := foldl tracking_step t0 obs in
  (max_cross_track t0 <= max_cross_track t)%R /\
  (forall o, o ∈ obs -> (o_cross_track_error o <= max_cross_track t)%R) /\
  (violations t0 <= violations t <= violations t0 + length obs)%nat /\
  (total_cross_track t
   <= total_cross_track t0 + INR (length obs) * max_cross_track t)%R.
Proof.
  revert t0. induction obs as [| o obs IH]; intros t0; cbn [foldl length].
  - split; [lra |]. split; [intros o Ho; inversion Ho |].
    split; [lia |]. cbn [INR]. lra.
  - destruct (IH (tracking_step t0 o)) as (Hmax & Hall & Hviol & Htotal).
    set (t := foldl tracking_step (tracking_step t0 o) obs) in *.
    assert (Hstep : (max_cross_track t0 <= max_cross_track (tracking_step t0 o)
                     /\ o_cross_track_error o
                        <= max_cross_track (tracking_step t0 o))%R).
    { cbn [tracking_step max_cross_track].
      split; [apply Rmax_l | apply Rmax_r]. }
    assert (Hv : (violations t0 <= violations (tracking_step t0 o)
                  <= S (violations t0))%nat).
    { cbn [tracking_step violations]. destruct (is_violating _ _ _); lia. }
    split; [lra |]. split.
    + intros o' Ho'. apply elem_of_cons in Ho' as [-> | Ho']; [lra | auto].
    + split; [lia |].
      rewrite S_INR.
      cbn [tracking_step total_cross_track] in Htotal. lra.
Qed.

(** The accumulators of [test_tracking.py]: the violation count never
    exceeds the number of steps, the running maximum dominates every
    cross-track error seen, the average error is at most the maximum, and
    a run that passes the final check (line 107) saw fewer than one
    violation in ten steps and no cross-track error of 10 m or more. *)
Theorem tracking_run_summary (obs : list observation) :
  let t := tracking_run obs in
  (violations t <= length obs)%nat /\
  (forall o, o ∈ obs -> (o_cross_track_error o <= max_cross_track t)%R) /\
  (total_cross_track t <= INR (length obs) * max_cross_track t)%R /\
  (tracking_success t (length obs) = true ->
   (10 * INR (violations t) < INR (length obs))%R /\
   forall o, o ∈ obs -> (o_cross_track_error o < 10)%R).
Proof.
  destruct (tracking_fold obs (mk_tracking_totals 0 0 0))
    as (_ & Hall & Hviol & Htotal).
  fold (tracking_run obs) in *. cbn [violations total_cross_track] in *.
  cbv zeta. split; [lia |]. split; [done |]. split; [lra |].
  unfold tracking_success. intros Hs.
  apply andb_prop in Hs as [Hv Hm].
  apply Rltb_true in Hv. apply Rltb_true in Hm.
  split; [lra |].
  intros o Ho. specialize (Hall o Ho). lra.
Qed.

Lemma tracking_run_summary_witness :
  let obs := [mk_observation 1 5 5; mk_observation 2 5 5] in
  tracking_success (tracking_run obs) (length obs) = true /\
  (10 * INR (violations (tracking_run obs)) < INR (length obs))%R /\
  forall o, o ∈ obs -> (o_cross_track_error o < 10)%R.
Proof.
  intros obs.
  assert (Hs : tracking_success (tracking_run obs) (length obs) = true).
  { unfold tracking_success, tracking_run, obs.
    cbn [foldl tracking_step length o_cross_track_error o_track_width_r
           o_track_width_l max_cross_track total_cross_track violations].
    unfold is_violating. cbn [INR]. decide_reals. cbn [violations INR].
    decide_reals. done. }
  split; [done |].
  apply (proj2 (proj2 (proj2 (tracking_run_summary obs)))). done.
Defined.

(** * Properties of the performance metrics *)

(** A successful [update], attribute by attribute. *)
Lemma update_ok
    (timestamp : R) (state control : list R)
    (cross_track_error heading_error curvature progress : R)
    (m : PerformanceMetrics) :
  (4 <= length state)%nat -> (2 <= length control)%nat ->
  exists v s a w : R,
    state !! 3%nat = Some v /\ state !! 2%nat = Some s /\
    control !! 1%nat = Some a /\ control !! 0%nat = Some w /\
    update timestamp state control cross_track_error heading_error
      curvature progress m
    = (Ok tt,
       mk_PerformanceMetrics
         (timestamps m ++ [timestamp]) (positions m ++ [take 2 state])
         (velocities m ++ [v]) (accelerations m ++ [a])
         (steering_angles m ++ [s]) (steering_velocities m ++ [w])
         (cross_track_errors m ++ [cross_track_error])
         (heading_errors m ++ [heading_error])
         (curvatures m ++ [curvature]) (lap_progress m ++ [progress])
         (lap_time m) (Rmax (max_velocity m) v) (avg_velocity m)
         (track_violations m) (total_distance m)).
Proof.
  intros Hs Hc.
  destruct state as [| x [| y [| s [| v srest]]]]; simpl in Hs; try lia.
  destruct control as [| w [| a crest]]; simpl in Hc; try lia.
  exists v, s, a, w. repeat (split; [done |]).
  destruct m. unfold update, pm_bind, pm_modify, pm_lift, pm_get, pm_ret.
  cbn -[py_index Rgtb take].
  rewrite (py_index_lookup _ 3 v), (py_index_lookup _ 2 s) by done.
  cbn -[py_index Rgtb take].
  rewrite (py_index_lookup _ 1 a), (py_index_lookup _ 0 w) by done.
  cbn -[py_index Rgtb take].
  unfold Rgtb, Rmax.
  destruct (Rlt_dec max_velocity0 v); destruct (Rle_dec max_velocity0 v);
    try lra; cbn; try done.
  assert (max_velocity0 = v) as -> by lra. done.
Qed.

(** A recording session over well-formed samples, from any object. *)
Lemma record_all_ok (samples : list sample) (m : PerformanceMetrics) :
  Forall well_formed_sample samples ->
  exists m' : PerformanceMetrics,
    record_all samples m = (Ok tt, m') /\
    timestamps m' = timestamps m ++ map s_timestamp samples /\
    positions m' = positions m ++ map (fun s => take 2 (s_state s)) samples /\
    velocities m'
      = velocities m ++ map (fun s => nth 3 (s_state s) 0%R) samples /\
    length (accelerations m') = (length (accelerations m) + length samples)%nat /\
    length (steering_angles m')
      = (length (steering_angles m) + length samples)%nat /\
    length (steering_velocities m')
      = (length (steering_velocities m) + length samples)%nat /\
    cross_track_errors m'
      = cross_track_errors m ++ map s_cross_track_error samples /\
    heading_errors m' = heading_errors m ++ map s_heading_error samples /\
    curvatures m' = curvatures m ++ map s_curvature samples /\
    lap_progress m' = lap_progress m ++ map s_progress samples /\
    max_velocity m'
      = foldl Rmax (max_velocity m)
          (map (fun s => nth 3 (s_state s) 0%R) samples) /\
    lap_time m' = lap_time m /\ avg_velocity m' = avg_velocity m /\
    track_violations m' = track_violations m /\
    total_distance m' = total_distance m.
Proof.
  intros Hwf. revert m.
  induction Hwf as [| s rest [Hs Hc] _ IH]; intros m.
  - exists m. cbn [record_all map foldl length]. unfold pm_ret.
    rewrite !app_nil_r, !Nat.add_0_r. repeat split; done.
  - destruct (update_ok (s_timestamp s) (s_state s) (s_control s)
                (s_cross_track_error s) (s_heading_error s) (s_curvature s)
                (s_progress s) m Hs Hc)
      as (v & st & a & w & Hv & _ & _ & _ & Hup).
    set (m1 := mk_PerformanceMetrics _ _ _ _ _ _ _ _ _ _ _ _ _ _ _) in Hup.
    destruct (IH m1) as (m' & Hrun & Ht & Hp & Hvel & Ha & Hsa & Hsv
                         & Hcte & Hhe & Hcu & Hlp & Hmax & Hlt & Hav
                         & Htv & Htd).
    assert (Hnth : nth 3 (s_state s) 0%R = v)
      by (apply nth_lookup_Some; done).
    exists m'. split.
    { cbn [record_all]. unfold pm_bind, update_sample. rewrite Hup. done. }
    unfold m1 in *. cbn [timestamps positions velocities accelerations
      steering_angles steering_velocities cross_track_errors heading_errors
      curvatures lap_progress max_velocity lap_time avg_velocity
      track_violations total_distance] in *.
    cbn [map foldl length]. rewrite Hnth.
    rewrite Ht, Hp, Hvel, Hcte, Hhe, Hcu, Hlp, Hmax, Ha, Hsa, Hsv,
      Hlt, Hav, Htv, Htd.
    rewrite <- !app_assoc, !length_app. cbn [app length].
    repeat split; try done; lia.
Qed.

(** Recording keeps the histories in step.  From a fresh object, a
    session of well-formed samples (a state of at least four components,
    a control of at least two) never raises, leaves all ten history lists
    with one entry per sample, and stores the time stamps, the positions
    (the first two state components), the velocities and the cross-track
    errors in the order they were passed. *)
Theorem record_all_aligned (samples : list sample) :
  Forall well_formed_sample samples ->
  exists m : PerformanceMetrics,
    record_all samples reset = (Ok tt, m) /\
    aligned (length samples) m /\
    timestamps m = map s_timestamp samples /\
    positions m = map (fun s => take 2 (s_state s)) samples /\
    velocities m = map (fun s => nth 3 (s_state s) 0%R) samples /\
    cross_track_errors m = map s_cross_track_error samples /\
    Forall (fun p => length p = 2%nat) (positions m).
Proof.
  intros Hwf.
  destruct (record_all_ok samples reset Hwf)
    as (m & Hrun & Ht & Hp & Hvel & Ha & Hsa & Hsv & Hcte & Hhe & Hcu & Hlp & _).
  cbn [reset timestamps positions velocities accelerations steering_angles
         steering_velocities cross_track_errors heading_errors curvatures
         lap_progress app length Nat.add] in *.
  exists m. split; [done |]. split.
  { unfold aligned.
    rewrite Ht, Hp, Hvel, Ha, Hsa, Hsv, Hcte, Hhe, Hcu, Hlp, !length_map.
    repeat split; done. }
  split; [done |]. split; [done |]. split; [done |]. split; [done |].
  rewrite Hp. apply Forall_map. eapply Forall_impl; [exact Hwf |].
  intros s [Hs _]. cbn. rewrite length_take. lia.
Qed.

Lemma record_all_aligned_witness :
  exists m : PerformanceMetrics,
    record_all [mk_sample 0 [1; 2; 0; 5; 0]%R [0.1; 2]%R 0.5 0 0 0] reset
      = (Ok tt, m) /\
    aligned 1 m /\
    timestamps m = [0%R] /\
    positions m = [[1; 2]%R] /\
    velocities m = [5%R] /\
    cross_track_errors m = [0.5%R] /\
    Forall (fun p => length p = 2%nat) (positions m).
Proof.
  apply (record_all_aligned
           [mk_sample 0 [1; 2; 0; 5; 0]%R [0.1; 2]%R 0.5 0 0 0]).
  repeat constructor; simpl; lia.
Defined.

(** [update] is not atomic.  With fewer than four state components it
    raises [IndexError] at [state[3]], after the time stamp and the
    position slice have already been appended: the histories of an object
    that was in step are left out of step by one. *)
Theorem update_short_state_misaligns
    (timestamp : R) (state control : list R)
    (cross_track_error heading_error curvature progress : R)
    (n : nat) (m : PerformanceMetrics) :
  (length state < 4)%nat -> aligned n m ->
  exists m' : PerformanceMetrics,
    update timestamp state control cross_track_error heading_error
      curvature progress m = (Raise IndexError, m') /\
    timestamps m' = timestamps m ++ [timestamp] /\
    positions m' = positions m ++ [take 2 state] /\
    velocities m' = velocities m /\
    length (timestamps m') = S n /\ length (velocities m') = n /\
    ~ aligned (S n) m' /\ ~ aligned n m'.
Proof.
  intros Hlen (Ht & Hp & Hv & _).
  destruct m. unfold update, pm_bind, pm_modify, pm_lift.
  cbn -[py_index take] in *.
  replace (py_index state 3) with (@Raise R IndexError)
    by (symmetry; apply (py_index_past_end state 3); lia).
  eexists. split; [done |].
  cbn -[take]. rewrite !length_app. cbn [length].
  repeat split; try done; try lia.
  - intros (_ & _ & Hv' & _). cbn in Hv'. lia.
  - intros (Ht' & _). cbn in Ht'. rewrite length_app in Ht'. cbn in Ht'. lia.
Qed.

Lemma update_short_state_misaligns_witness :
  exists m' : PerformanceMetrics,
    update 0 [1; 2]%R [0.1; 2]%R 0 0 0 0 reset = (Raise IndexError, m') /\
    timestamps m' = timestamps reset ++ [0%R] /\
    positions m' = positions reset ++ [take 2 [1; 2]%R] /\
    velocities m' = velocities reset /\
    length (timestamps m') = 1%nat /\ length (velocities m') = 0%nat /\
    ~ aligned 1 m' /\ ~ aligned 0 m'.
Proof.
  apply (update_short_state_misaligns 0 [1; 2]%R [0.1; 2]%R 0 0 0 0 0 reset).
  - simpl. lia.
  - repeat split.
Defined.

Lemma foldl_Rmax_spec (l : list R) (x : R) :
  (x <= foldl Rmax x l)%R /\
  (forall y, y ∈ l -> (y <= foldl Rmax x l)%R) /\
  (foldl Rmax x l = x \/ foldl Rmax x l ∈ l).
Proof.
  revert x. induction l as [| y l IH]; intros x; cbn [foldl].
  - split; [lra |]. split; [intros y Hy; inversion Hy | left; done].
  - destruct (IH (Rmax x y)) as (Hge & Hall & Hmem).
    pose proof (Rmax_l x y). pose proof (Rmax_r x y).
    split; [lra |]. split.
    + intros z Hz. apply elem_of_cons in Hz as [-> | Hz]; [lra | auto].
    + destruct Hmem as [Heq | Hin].
      * rewrite Heq. unfold Rmax. destruct (Rle_dec x y).
        -- right. apply elem_of_cons. left. done.
        -- left. done.
      * right. apply elem_of_cons. right. done.
Qed.

(** [max_velocity] is a running maximum that starts at 0: after a session
    of well-formed samples from a fresh object it is at least every
    recorded velocity and never negative, and it is either 0 or one of the
    recorded velocities (so a session of negative velocities reports 0). *)
Theorem record_all_max_velocity (samples : list sample) :
  Forall well_formed_sample samples ->
  exists m : PerformanceMetrics,
    record_all samples reset = (Ok tt, m) /\
    (0 <= max_velocity m)%R /\
    (forall v, v ∈ velocities m -> (v <= max_velocity m)%R) /\
    (max_velocity m = 0%R \/ max_velocity m ∈ velocities m).
Proof.
  intros Hwf.
  destruct (record_all_ok samples reset Hwf)
    as (m & Hrun & _ & _ & Hvel & _ & _ & _ & _ & _ & _ & _ & Hmax & _).
  cbn [reset velocities max_velocity app] in *.
  exists m. split; [done |]. rewrite Hmax, Hvel.
  apply foldl_Rmax_spec.
Qed.

Lemma record_all_max_velocity_witness :
  exists m : PerformanceMetrics,
    record_all [mk_sample 0 [1; 2; 0; -5; 0]%R [0.1; 2]%R 0.5 0 0 0] reset
      = (Ok tt, m) /\
    (0 <= max_velocity m)%R /\
    (forall v, v ∈ velocities m -> (v <= max_velocity m)%R) /\
    (max_velocity m = 0%R \/ max_velocity m ∈ velocities m).
Proof.
  apply (record_all_max_velocity
           [mk_sample 0 [1; 2; 0; -5; 0]%R [0.1; 2]%R 0.5 0 0 0]).
  repeat constructor; simpl; lia.
Defined.

Lemma norm_triangle (u v : point) : (norm (padd u v) <= norm u + norm v)%R.
Proof.
  destruct u as [u1 u2], v as [v1 v2].
  pose proof (norm_nonneg (u1, u2)) as HA.
  pose proof (norm_nonneg (v1, v2)) as HB.
  assert (HA2 : (norm (u1, u2) * norm (u1, u2) = u1 * u1 + u2 * u2)%R)
    by (unfold norm; cbn [fst snd]; apply sqrt_sqrt; nra).
  assert (HB2 : (norm (v1, v2) * norm (v1, v2) = v1 * v1 + v2 * v2)%R)
    by (unfold norm; cbn [fst snd]; apply sqrt_sqrt; nra).
  set (A := norm (u1, u2)) in *. set (B := norm (v1, v2)) in *.
  assert (Hcs : (u1 * v1 + u2 * v2 <= A * B)%R).
  { destruct (Rle_dec (u1 * v1 + u2 * v2) 0) as [Hneg | Hpos]; [nra |].
    apply Rnot_le_lt in Hpos.
    assert (Hsq : ((u1 * v1 + u2 * v2) * (u1 * v1 + u2 * v2)
                   <= (A * B) * (A * B))%R).
    { replace ((A * B) * (A * B))%R with ((A * A) * (B * B))%R by ring.
      rewrite HA2, HB2.
      pose proof (Rle_0_sqr (u1 * v2 - u2 * v1)) as Hc. unfold Rsqr in Hc.
      nra. }
    pose proof (Rmult_le_pos A B HA HB) as HAB.
    destruct (Rle_dec (u1 * v1 + u2 * v2) (A * B)) as [| Hgt]; [done |].
    apply Rnot_le_lt in Hgt. exfalso.
    assert (0 < (u1 * v1 + u2 * v2 - A * B) * (u1 * v1 + u2 * v2 + A * B))%R
      by (apply Rmult_lt_0_compat; lra).
    lra. }
  unfold padd, norm at 1. cbn [fst snd].
  rewrite <- (sqrt_square (A + B)) by lra.
  apply sqrt_le_1_alt. nra.
Qed.

Lemma norm_row_pair (a b : R) : norm_row [a; b] = norm (a, b).
Proof.
  unfold norm_row, norm, list_sum. cbn [map foldr fst snd].
  f_equal. lra.
Qed.

Lemma list_sum_nonneg (l : list R) :
  Forall (fun x => 0 <= x)%R l -> (0 <= list_sum l)%R.
Proof.
  induction 1 as [| x l Hx _ IH]; unfold list_sum in *; cbn [foldr]; lra.
Qed.

Lemma list_sum_bound (l : list R) (b : R) :
  (forall x, x ∈ l -> (x <= b)%R) ->
  (list_sum l <= INR (length l) * b)%R.
Proof.
  induction l as [| x l IH]; intros Hb.
  - unfold list_sum. cbn. lra.
  - assert (Hx : (x <= b)%R) by (apply Hb, elem_of_cons; left; done).
    assert (Hl : (list_sum l <= INR (length l) * b)%R).
    { apply IH. intros y Hy. apply Hb, elem_of_cons. right. done. }
    cbn [length]. rewrite S_INR. unfold list_sum in *. cbn [foldr]. lra.
Qed.

Lemma mean_bound (l : list R) (b : R) :
  l <> [] -> (forall x, x ∈ l -> (x <= b)%R) -> (mean l <= b)%R.
Proof.
  intros Hne Hb. unfold mean.
  assert (Hn : (0 < INR (length l))%R).
  { apply lt_0_INR. destruct l; [done | simpl; lia]. }
  pose proof (list_sum_bound l b Hb) as Hs.
  apply (Rmult_le_reg_r (INR (length l))); [done |].
  unfold Rdiv. rewrite Rmult_assoc, Rinv_l by lra. lra.
Qed.

Lemma np_rows_pairs (rows : list (list R)) :
  Forall (fun p => length p = 2%nat) rows -> np_rows rows = Ok rows.
Proof.
  intros Hrows. destruct rows as [| r rs]; [done |].
  unfold np_rows. apply Forall_cons in Hrows as [Hr Hrs].
  rewrite (proj2 (forallb_forall _ rs)); [done |].
  intros r' Hin. apply Nat.eqb_eq. rewrite Hr.
  rewrite Forall_forall in Hrs. apply Hrs. apply list_elem_of_In. done.
Qed.

Lemma last_Forall {A : Type} (P : A -> Prop) (l : list A) (d : A) :
  P d -> Forall P l -> P (List.last l d).
Proof.
  intros Hd Hl. induction Hl as [| x l Hx Hl IH]; [done |].
  cbn [List.last]. destruct l; done.
Qed.

Lemma last_default_irrelevant {A : Type} (l : list A) (d d' : A) :
  l <> [] -> List.last l d = List.last l d'.
Proof.
  induction l as [| x l IH]; [done |]. intros _.
  cbn [List.last]. destruct l; [done |]. apply IH. done.
Qed.

(** The summed length of a polyline of planar rows is at least the
    straight-line distance between its end points. *)
Lemma path_length_chord (p0 : list R) (rest : list (list R)) :
  Forall (fun p => length p = 2%nat) (p0 :: rest) ->
  (0 <= list_sum (map norm_row (np_diff (p0 :: rest))))%R /\
  (norm_row (zip_with Rminus (List.last rest p0) p0)
   <= list_sum (map norm_row (np_diff (p0 :: rest))))%R.
Proof.
  revert p0. induction rest as [| p1 rest IH]; intros p0 Hrows.
  - apply Forall_cons in Hrows as [Hp0 _].
    destruct p0 as [| a [| b [|]]]; try discriminate.
    cbn [np_diff map List.last zip_with]. unfold list_sum at 1 2. cbn [foldr].
    split; [lra |]. rewrite norm_row_pair.
    replace (a - a, b - b)%R with ((0, 0)%R : point) by (f_equal; lra).
    rewrite norm_zero. lra.
  - pose proof Hrows as Hrows'.
    apply Forall_cons in Hrows' as [Hp0 Hrest].
    destruct (IH p1 Hrest) as (Hpos & Hchord).
    pose proof Hrest as Hrest'. apply Forall_cons in Hrest' as [Hp1 Htail].
    assert (Hlast : length (List.last rest p1) = 2%nat)
      by (apply (last_Forall (fun p => length p = 2%nat)); done).
    change (List.last (p1 :: rest) p0) with
      (match rest with [] => p1 | _ :: _ => List.last rest p0 end).
    assert (Hsame : match rest with [] => p1 | _ :: _ => List.last rest p0 end
                    = List.last rest p1).
    { destruct rest as [| q rest']; [done |].
      apply last_default_irrelevant. done. }
    rewrite Hsame.
    change (np_diff (p0 :: p1 :: rest))
      with (zip_with Rminus p1 p0 :: np_diff (p1 :: rest)).
    cbn [map]. unfold list_sum in *. cbn [foldr].
    destruct p0 as [| a0 [| b0 [|]]]; try discriminate.
    destruct p1 as [| a1 [| b1 [|]]]; try discriminate.
    destruct (List.last rest [a1; b1]) as [| an [| bn [|]]]; try discriminate.
    cbn [zip_with] in *. rewrite !norm_row_pair in *.
    pose proof (norm_nonneg (a1 - a0, b1 - b0)%R).
    split; [lra |].
    pose proof (norm_triangle (a1 - a0, b1 - b0)%R (an - a1, bn - b1)%R) as Ht.
    unfold padd in Ht. cbn [fst snd] in Ht.
    replace (a1 - a0 + (an - a1), b1 - b0 + (bn - b1))%R
      with ((an - a0, bn - b0)%R : point) in Ht by (f_equal; lra).
    lra.
Qed.

(** [finalize_lap] on an object whose positions are all planar. *)
Lemma finalize_lap_ok
    (lap : R) (viol : Z) (m : PerformanceMetrics) :
  Forall (fun p => length p = 2%nat) (positions m) ->
  finalize_lap lap viol m
  = (Ok tt,
     mk_PerformanceMetrics
       (timestamps m) (positions m) (velocities m) (accelerations m)
       (steering_angles m) (steering_velocities m) (cross_track_errors m)
       (heading_errors m) (curvatures m) (lap_progress m)
       (Some lap) (max_velocity m)
       (if (0 <? length (velocities m))%nat then mean (velocities m)
        else avg_velocity m)
       viol
       (if (1 <? length (positions m))%nat
        then list_sum (map norm_row (np_diff (positions m)))
        else total_distance m)).
Proof.
  intros Hrows. destruct m.
  unfold finalize_lap, pm_bind, pm_modify, pm_get, pm_lift, pm_ret.
  cbn [positions velocities] in *.
  cbn -[Nat.ltb mean np_rows np_diff norm_row list_sum].
  destruct (0 <? length velocities0)%nat;
    cbn -[Nat.ltb mean np_rows np_diff norm_row list_sum];
    destruct (1 <? length positions0)%nat;
    cbn -[Nat.ltb mean np_rows np_diff norm_row list_sum];
    rewrite ?np_rows_pairs by done; done.
Qed.



(** A recorded lap never reports an average velocity above its maximum:
    after a session of well-formed samples from a fresh object,
    [finalize_lap] returns with [avg_velocity <= max_velocity] and a
    non-negative distance; for an empty session it divides by nothing and
    leaves both at 0. *)
Theorem recorded_lap_average (samples : list sample) (lap : R) (viol : Z) :
  Forall well_formed_sample samples ->
  exists m m' : PerformanceMetrics,
    record_all samples reset = (Ok tt, m) /\
    finalize_lap lap viol m = (Ok tt, m') /\
    (avg_velocity m' <= max_velocity m')%R /\
    (0 <= total_distance m')%R /\
    (samples <> [] -> avg_velocity m' = mean (velocities m)) /\
    (samples = [] -> avg_velocity m' = 0%R /\ total_distance m' = 0%R).
Proof.
  intros Hwf.
  destruct (record_all_ok samples reset Hwf)
    as (m & Hrun & _ & Hp & Hvel & _ & _ & _ & _ & _ & _ & _ & Hmax
        & _ & Hav & _ & Htd).
  cbn [reset positions velocities max_velocity avg_velocity total_distance
         app] in *.
  assert (Hrows : Forall (fun p => length p = 2%nat) (positions m)).
  { rewrite Hp. apply Forall_map. eapply Forall_impl; [exact Hwf |].
    intros s [Hs _]. cbn. rewrite length_take. lia. }
  exists m. eexists. split; [done |].
  split; [apply finalize_lap_ok; done |].
  cbn [avg_velocity max_velocity total_distance].
  destruct (foldl_Rmax_spec (velocities m) 0) as (Hge & Hall & _).
  rewrite <- Hvel in Hmax.
  split; [| split; [| split]].
  - destruct (Nat.ltb_spec 0 (length (velocities m))) as [Hpos | Hzero].
    + rewrite Hmax. apply mean_bound; [| done].
      destruct (velocities m); [simpl in Hpos; lia | done].
    + rewrite Hav, Hmax. done.
  - destruct (Nat.ltb_spec 1 (length (positions m))) as [Hpos | Hsmall].
    + destruct (positions m) as [| p0 rest] eqn:Hps; [simpl in Hpos; lia |].
      apply path_length_chord. done.
    + rewrite Htd. lra.
  - intros Hne. rewrite Hvel, length_map.
    destruct samples; [done |]. done.
  - intros ->. rewrite Hvel, Hp. cbn. rewrite Hav, Htd. done.
Qed.

Lemma recorded_lap_average_witness :
  exists m m' : PerformanceMetrics,
    record_all [mk_sample 0 [1; 2; 0; 5; 0]%R [0.1; 2]%R 0.5 0 0 0] reset
      = (Ok tt, m) /\
    finalize_lap 60 0 m = (Ok tt, m') /\
    (avg_velocity m' <= max_velocity m')%R /\
    (0 <= total_distance m')%R /\
    ([mk_sample 0 [1; 2; 0; 5; 0]%R [0.1; 2]%R 0.5 0 0 0] <> [] ->
     avg_velocity m' = mean (velocities m)) /\
    ([mk_sample 0 [1; 2; 0; 5; 0]%R [0.1; 2]%R 0.5 0 0 0] = [] ->
     avg_velocity m' = 0%R /\ total_distance m' = 0%R).
Proof.
  apply (recorded_lap_average
           [mk_sample 0 [1; 2; 0; 5; 0]%R [0.1; 2]%R 0.5 0 0 0] 60 0).
  repeat constructor; simpl; lia.
Defined.

Lemma mean_abs_nonneg (l : list R) : (0 <= mean (map Rabs l))%R.
Proof.
  unfold mean.
  assert (Hs : (0 <= list_sum (map Rabs l))%R).
  { apply list_sum_nonneg, Forall_map, Forall_forall.
    intros x _. apply Rabs_pos. }
  destruct l as [| x l].
  - cbn. unfold Rdiv. rewrite Rinv_0. lra.
  - apply Rmult_le_pos; [done |].
    apply Rlt_le, Rinv_0_lt_compat, lt_0_INR. simpl. lia.
Qed.

(** [generate_report] never raises, even on an object with no data, where
    the error statistics are 0.  Otherwise the reported average absolute
    cross-track error lies between 0 and the reported maximum, which
    bounds every recorded cross-track error in absolute value; the lap
    statistics are copied from the object. *)
Theorem generate_report_error_statistics
    (now : string) (m : PerformanceMetrics) :
  exists r : report,
    generate_report now m = Ok r /\
    (0 <= r_avg_cross_track_error r <= r_max_cross_track_error r)%R /\
    (forall e, e ∈ cross_track_errors m ->
               (Rabs e <= r_max_cross_track_error r)%R) /\
    (cross_track_errors m = [] ->
     r_avg_cross_track_error r = 0%R /\ r_max_cross_track_error r = 0%R) /\
    (0 <= r_avg_heading_error r)%R /\
    r_lap_time r = lap_time m /\ r_max_velocity r = max_velocity m /\
    r_avg_velocity r = avg_velocity m /\
    r_track_violations r = track_violations m /\
    r_total_distance r = total_distance m /\ r_timestamp r = now.
Proof.
  unfold generate_report.
  assert (Hhe : (0 <= (if bool_decide (heading_errors m = []) then 0
                       else mean (map Rabs (heading_errors m))))%R).
  { case_bool_decide; [lra | apply mean_abs_nonneg]. }
  destruct (cross_track_errors m) as [| e0 es] eqn:Hcte.
  - rewrite bool_decide_eq_true_2 by done. cbn [rbind].
    destruct (bool_decide (heading_errors m = [])); cbn [rbind];
      eexists; (split; [done |]); cbn;
      (split; [lra |]); (split; [intros e He; inversion He |]);
      (split; [done |]); (split; [done |]); repeat split.
  - rewrite bool_decide_eq_false_2 by done. cbn [rbind map list_max].
    destruct (foldl_Rmax_spec (map Rabs es) (Rabs e0)) as (Hge & Hall & _).
    assert (Hbound : forall x, x ∈ map Rabs (e0 :: es) ->
                       (x <= foldl Rmax (Rabs e0) (map Rabs es))%R).
    { intros x Hx. cbn [map] in Hx.
      apply elem_of_cons in Hx as [-> | Hx]; [done | auto]. }
    pose proof (mean_bound (map Rabs (e0 :: es)) _ ltac:(done) Hbound) as Hmean.
    pose proof (mean_abs_nonneg (e0 :: es)) as Hpos.
    destruct (bool_decide (heading_errors m = [])); cbn [rbind];
      eexists; (split; [done |]); cbn -[mean Rabs];
      (split; [done |]);
      (split; [intros e He; apply Hbound; cbn [map];
               apply elem_of_cons in He as [-> | He];
               [left | right; apply list_elem_of_fmap_2; done] |]);
      (split; [discriminate |]); (split; [done |]); repeat split.
Qed.

(** * The score of the test runner *)

(** For a completed lap (non-negative lap time and violation count) the
    score lies in [0, 100]; the time penalty is capped, so the score is at
    least [50 - 5 * violations]; twenty violations or more give 0; and the
    score never increases with a longer lap or with more violations. *)
Theorem run_score_range (lap_time : R) (track_violations : Z) :
  (0 <= lap_time)%R -> (0 <= track_violations)%Z ->
  (0 <= run_score lap_time track_violations <= 100)%R /\
  (50 - 5 * IZR track_violations <= run_score lap_time track_violations)%R /\
  ((20 <= track_violations)%Z -> run_score lap_time track_violations = 0%R) /\
  (forall lap_time' track_violations',
      (lap_time <= lap_time')%R -> (track_violations <= track_violations')%Z ->
      (run_score lap_time' track_violations'
       <= run_score lap_time track_violations)%R).
Proof.
  intros Hlap Hviol. apply IZR_le in Hviol.
  unfold run_score. split; [| split; [| split]].
  - split; split_reals; lra.
  - split_reals; lra.
  - intros H20. apply IZR_le in H20. split_reals; lra.
  - intros lap' viol' Hl Hv. apply IZR_le in Hv. split_reals; lra.
Qed.

Lemma run_score_range_witness :
  (0 <= run_score 90 3 <= 100)%R /\
  (50 - 5 * IZR 3 <= run_score 90 3)%R /\
  ((20 <= 3)%Z -> run_score 90 3 = 0%R) /\
  (forall lap_time' track_violations',
      (90 <= lap_time')%R -> (3 <= track_violations')%Z ->
      (run_score lap_time' track_violations' <= run_score 90 3)%R).
Proof.
  apply (run_score_range 90 3).
  - lra.
  - lia.
Defined.

(** * Properties of the analysis and tuning helpers *)

Lemma sign_changes_bound (history : list R) :
  (sign_changes history <= length history - 1)%nat.
Proof.
  induction history as [| x rest IH]; [done |].
  destruct rest as [| y rest']; [done |].
  change (sign_changes (x :: y :: rest'))
    with ((if Req_dec_T (sign y) (sign x) then 0 else 1)
          + sign_changes (y :: rest'))%nat.
  cbn [length] in *.
  destruct (Req_dec_T (sign y) (sign x)); lia.
Qed.

Lemma sign_changes_same_sign (history : list R) (s : R) :
  (forall x, x ∈ history -> sign x = s) -> sign_changes history = 0%nat.
Proof.
  induction history as [| x rest IH]; intros Hs; [done |].
  destruct rest as [| y rest']; [done |].
  change (sign_changes (x :: y :: rest'))
    with ((if Req_dec_T (sign y) (sign x) then 0 else 1)
          + sign_changes (y :: rest'))%nat.
  rewrite IH by (intros z Hz; apply Hs, elem_of_cons; right; done).
  rewrite (Hs x) by (apply elem_of_cons; left; done).
  rewrite (Hs y) by (apply elem_of_cons; right; apply elem_of_cons; left; done).
  destruct (Req_dec_T s s); done.
Qed.

(** The oscillation verdict of [analyze_oscillation.py]: the count of
    steering sign changes is below the number of samples; no verdict is
    given for ten samples or fewer; a history that stays strictly on one
    side has no sign change and, when long enough, is judged low; and a
    high verdict means that more than three samples in ten changed
    sign. *)
Theorem oscillation_verdict_summary (steering_history : list R) :
  (sign_changes steering_history <= length steering_history - 1)%nat /\
  ((length steering_history <= 10)%nat ->
   oscillation_verdict steering_history = None) /\
  ((forall x, x ∈ steering_history -> (0 < x)%R) \/
   (forall x, x ∈ steering_history -> (x < 0)%R) ->
   sign_changes steering_history = 0%nat /\
   ((10 < length steering_history)%nat ->
    oscillation_verdict steering_history = Some "LOW OSCILLATION")) /\
  (oscillation_verdict steering_history = Some "HIGH OSCILLATION DETECTED" ->
   (3 * INR (length steering_history)
    < 10 * INR (sign_changes steering_history))%R).
Proof.
  split; [apply sign_changes_bound |]. split; [| split].
  - intros Hlen. unfold oscillation_verdict.
    destruct (Nat.ltb_spec 10 (length steering_history)); [lia | done].
  - intros Hside.
    assert (Hzero : sign_changes steering_history = 0%nat).
    { destruct Hside as [Hpos | Hneg].
      - apply (sign_changes_same_sign _ 1). intros x Hx.
        apply sign_pos. auto.
      - apply (sign_changes_same_sign _ (-1)). intros x Hx.
        apply sign_neg. auto. }
    split; [done |]. intros Hlen. unfold oscillation_verdict.
    destruct (Nat.ltb_spec 10 (length steering_history)); [| lia].
    rewrite Hzero. cbn [INR]. unfold Rdiv. rewrite Rmult_0_l.
    decide_reals. done.
  - unfold oscillation_verdict.
    destruct (Nat.ltb_spec 10 (length steering_history)) as [Hlen |];
      [| discriminate].
    assert (Hn : (0 < INR (length steering_history))%R)
      by (apply lt_0_INR; lia).
    destruct (Rgtb _ 0.3) eqn:Hhigh.
    + intros _. apply Rgtb_true in Hhigh.
      apply (Rmult_lt_compat_r _ _ _ Hn) in Hhigh.
      unfold Rdiv in Hhigh. rewrite Rmult_assoc, Rinv_l in Hhigh by lra.
      lra.
    + destruct (Rgtb _ 0.15); discriminate.
Qed.

Lemma oscillation_verdict_summary_witness :
  sign_changes [1; 2; 1; 3; 2; 1; 2; 3; 1; 2; 4]%R = 0%nat /\
  oscillation_verdict [1; 2; 1; 3; 2; 1; 2; 3; 1; 2; 4]%R
  = Some "LOW OSCILLATION".
Proof.
  destruct (proj1 (proj2 (proj2 (oscillation_verdict_summary
              [1; 2; 1; 3; 2; 1; 2; 3; 1; 2; 4]%R)))) as [Hz Hv].
  - left. intros x Hx.
    repeat (apply elem_of_cons in Hx as [-> | Hx]; [lra |]).
    inversion Hx.
  - split; [done |]. apply Hv. simpl. lia.
Defined.

(** The invariant of the grid search, over any list of grid points. *)
Lemma tune_fold_spec (run_test : R -> R -> R -> test_result)
    (grid : list (R * R * R)) :
  match foldl (tune_step run_test) None grid with
  | None => forall g, g ∈ grid -> lap_completed (run_at run_test g) = false
  | Some (sc, bp) =>
      best_point bp ∈ grid /\
      lap_completed (run_at run_test (best_point bp)) = true /\
      sc = tuning_score (run_at run_test (best_point bp)) /\
      bp_lap_time bp = res_lap_time (run_at run_test (best_point bp)) /\
      bp_violations bp
        = res_track_violations (run_at run_test (best_point bp)) /\
      forall g, g ∈ grid -> lap_completed (run_at run_test g) = true ->
                (sc <= tuning_score (run_at run_test g))%R
  end.
Proof.
  induction grid as [| g grid IH] using rev_ind.
  - cbn. intros g Hg. inversion Hg.
  - rewrite foldl_app. cbn [foldl].
    destruct g as [[v s] l].
    destruct (foldl (tune_step run_test) None grid) as [[sc bp] |].
    + destruct IH as (Hin & Hdone & Hsc & Hlt & Hviol & Hmin).
      unfold tune_step.
      change (run_test v s l) with (run_at run_test (v, s, l)).
      destruct (lap_completed (run_at run_test (v, s, l))) eqn:Hc.
      * destruct (Rltb _ sc) eqn:Hlt'.
        -- apply Rltb_true in Hlt'.
           split; [apply elem_of_app; right; apply elem_of_cons; left; done |].
           split; [done |]. split; [done |]. split; [done |]. split; [done |].
           intros g Hg Hgc. apply elem_of_app in Hg as [Hg | Hg].
           ++ specialize (Hmin g Hg Hgc). lra.
           ++ apply elem_of_cons in Hg as [-> | Hg]; [| inversion Hg].
              cbn [best_point bp_velocity_kp bp_steering_kp bp_lookahead]. lra.
        -- apply Rltb_false in Hlt'.
           split; [apply elem_of_app; left; done |].
           split; [done |]. split; [done |]. split; [done |]. split; [done |].
           intros g Hg Hgc. apply elem_of_app in Hg as [Hg | Hg]; [auto |].
           apply elem_of_cons in Hg as [-> | Hg]; [done | inversion Hg].
      * split; [apply elem_of_app; left; done |].
        split; [done |]. split; [done |]. split; [done |]. split; [done |].
        intros g Hg Hgc. apply elem_of_app in Hg as [Hg | Hg]; [auto |].
        apply elem_of_cons in Hg as [-> | Hg]; [congruence | inversion Hg].
    + unfold tune_step.
      change (run_test v s l) with (run_at run_test (v, s, l)).
      destruct (lap_completed (run_at run_test (v, s, l))) eqn:Hc.
      * split; [apply elem_of_app; right; apply elem_of_cons; left; done |].
        split; [done |]. split; [done |]. split; [done |]. split; [done |].
        intros g Hg Hgc. apply elem_of_app in Hg as [Hg | Hg].
        -- rewrite (IH g Hg) in Hgc. discriminate.
        -- apply elem_of_cons in Hg as [-> | Hg]; [| inversion Hg].
           cbn [best_point bp_velocity_kp bp_steering_kp bp_lookahead]. lra.
      * intros g Hg. apply elem_of_app in Hg as [Hg | Hg]; [auto |].
        apply elem_of_cons in Hg as [-> | Hg]; [done | inversion Hg].
Qed.

(** [tune_controller] tries the 100 points of its grid and selects one
    that minimises lap time plus ten times the violations among the runs
    that completed a lap, reporting that run's lap time and violations;
    it returns the empty result exactly when no run completed. *)
Theorem tune_controller_selects_minimum
    (run_test : R -> R -> R -> test_result) :
  length param_grid = 100%nat /\
  (tune_controller run_test = None <->
   forall g, g ∈ param_grid -> lap_completed (run_at run_test g) = false) /\
  (forall bp,
      tune_controller run_test = Some bp ->
      best_point bp ∈ param_grid /\
      lap_completed (run_at run_test (best_point bp)) = true /\
      bp_lap_time bp = res_lap_time (run_at run_test (best_point bp)) /\
      bp_violations bp
        = res_track_violations (run_at run_test (best_point bp)) /\
      forall g, g ∈ param_grid ->
                lap_completed (run_at run_test g) = true ->
                (tuning_score (run_at run_test (best_point bp))
                 <= tuning_score (run_at run_test g))%R).
Proof.
  split; [done |].
  pose proof (tune_fold_spec run_test param_grid) as Hspec.
  unfold tune_controller.
  destruct (foldl (tune_step run_test) None param_grid) as [[sc bp] |].
  - destruct Hspec as (Hin & Hdone & Hsc & Hlt & Hviol & Hmin).
    split.
    + split; [discriminate |]. intros Hnone.
      rewrite (Hnone _ Hin) in Hdone. discriminate.
    + intros bp' [= <-]. rewrite <- Hsc. done.
  - split; [done |]. intros bp [=].
Qed.

Lemma tune_controller_selects_minimum_witness :
  tune_controller (fun _ _ _ => mk_test_result false 0 0) = None.
Proof.
  apply (proj1 (proj2 (tune_controller_selects_minimum
                         (fun _ _ _ => mk_test_result false 0 0)))).
  intros g _. reflexivity.
Defined.
